(** * S3 upload engine of ccx-messaging: a shallow embedding and its properties

    Source: [ccx_messaging/engines/s3_upload_engine.py].

    The development follows the module top-down:
    - [Re]: the fragment of Python's [re] that [S3_ARCHIVE_PATTERN] uses
      (literals, greedy bounded repetition of a character class, named
      groups), with backtracking written out;
    - [S3_ARCHIVE_PATTERN], [create_metadata], [compute_target_path] and
      [process], translated from the source;
    - [ChainMap], [Json], [SlicedTemplate]: the collaborators the engine
      calls. *)

From Stdlib Require Import ZArith Ascii String List Lia Decimal DecimalString.
From stdpp Require Import gmap strings list fin_maps.

Local Open Scope string_scope.
Local Open Scope list_scope.
Local Open Scope nat_scope.

(** Python [str] values are modelled as [string]; the algorithms that walk a
    string character by character work on [list ascii]. *)
Abbreviation chars := list_ascii_of_string.
Abbreviation str := string_of_list_ascii.

(** ** Regular expressions: the fragment of [re] used by the engine *)

Module Re.

(** One member of a bracketed character set: [lo-hi] or a single
    character. *)
Inductive class_item : Type :=
| CRange (lo hi : ascii)
| CChar (c : ascii).

Definition char_class : Type := list class_item.

Definition item_mem (c : ascii) (i : class_item) : bool :=
  match i with
  | CRange lo hi =>
      Nat.leb (nat_of_ascii lo) (nat_of_ascii c)
      && Nat.leb (nat_of_ascii c) (nat_of_ascii hi)
  | CChar d => Ascii.eqb c d
  end.

Definition class_mem (cls : char_class) (c : ascii) : bool :=
  existsb (item_mem c) cls.

(** [Rep cls lo hi] is the greedy [[cls]{lo,hi}]; [hi = None] is an open
    upper bound, so [[cls]+] is [Rep cls 1 None] and [[cls]*] is
    [Rep cls 0 None]. [Named n r] is [(?P<n>r)]. *)
Inductive regex : Type :=
| Eps
| Lit (c : ascii)
| Rep (cls : char_class) (lo : nat) (hi : option nat)
| Cat (r1 r2 : regex)
| Named (name : string) (r : regex).

(** Length of the longest prefix of [s] inside [cls], cut at [hi]. *)
Fixpoint span (cls : char_class) (hi : option nat) (s : list ascii) : nat :=
  match hi, s with
  | Some 0, _ => 0
  | _, [] => 0
  | _, c :: s' =>
      if class_mem cls c then S (span cls (Nat.pred <$> hi) s') else 0
  end.

(** Greedy choice with backtracking: try [n], [n-1], ..., [lo]
    repetitions and keep the first count the continuation accepts. *)
Fixpoint backtrack {R : Type} (k : nat -> option R) (lo n : nat) : option R :=
  if Nat.ltb n lo then None
  else match k n with
       | Some r => Some r
       | None => match n with
                 | 0 => None
                 | S n' => backtrack k lo n'
                 end
       end.

(** The matcher, in continuation-passing style: [k] receives what is left
    of the subject and the groups captured so far. *)
Fixpoint rmatch {R : Type} (r : regex) (s : list ascii) (g : gmap string string)
    (k : list ascii -> gmap string string -> option R) : option R :=
  match r with
  | Eps => k s g
  | Lit c =>
      match s with
      | c' :: s' => if Ascii.eqb c' c then k s' g else None
      | [] => None
      end
  | Rep cls lo hi =>
      backtrack (fun j => k (drop j s) g) lo (span cls hi s)
  | Cat r1 r2 =>
      rmatch r1 s g (fun s' g' => rmatch r2 s' g' k)
  | Named name r1 =>
      rmatch r1 s g (fun s' g' =>
        k s' (<[name := str (take (length s - length s') s)]> g'))
  end.

(** [pattern.match(s)] followed by [groupdict()]: anchored at the start
    of [s], free at its end; [None] when there is no match. *)
Definition re_match (r : regex) (s : string) : option (gmap string string) :=
  rmatch r (chars s) ∅ (fun _ g => Some g).

(** A declarative reading of the same language. [matches r w g g']: [r]
    matches exactly the word [w] and turns the groups [g] into [g']. *)
Inductive matches : regex -> list ascii -> gmap string string -> gmap string string -> Prop :=
| matches_Eps g : matches Eps [] g g
| matches_Lit c g : matches (Lit c) [c] g g
| matches_Rep cls lo hi w g :
    Forall (fun c => class_mem cls c = true) w ->
    lo <= length w ->
    (forall h, hi = Some h -> length w <= h) ->
    matches (Rep cls lo hi) w g g
| matches_Cat r1 r2 w1 w2 g g1 g2 :
    matches r1 w1 g g1 ->
    matches r2 w2 g1 g2 ->
    matches (Cat r1 r2) (w1 ++ w2) g g2
| matches_Named name r w g g' :
    matches r w g g' ->
    matches (Named name r) w g (<[name := str w]> g').

(** [s] is empty or starts with a character outside [cls]. *)
Definition head_outside (cls : char_class) (s : list ascii) : Prop :=
  match s with
  | [] => True
  | c :: _ => class_mem cls c = false
  end.

(** The greedy reading: as [matches], with the rest [s'] of the subject in
    view, and every repetition taken as far as it goes: up to its upper
    bound, or up to a character outside its set, or up to the end. *)
Inductive greedy : regex -> list ascii -> list ascii -> gmap string string -> gmap string string -> Prop :=
| greedy_Eps s' g : greedy Eps [] s' g g
| greedy_Lit c s' g : greedy (Lit c) [c] s' g g
| greedy_Rep cls lo hi w s' g :
    Forall (fun c => class_mem cls c = true) w ->
    lo <= length w ->
    (forall h, hi = Some h -> length w <= h) ->
    hi = Some (length w) \/ head_outside cls s' ->
    greedy (Rep cls lo hi) w s' g g
| greedy_Cat r1 r2 w1 w2 s' g g1 g2 :
    greedy r1 w1 (w2 ++ s') g g1 ->
    greedy r2 w2 s' g1 g2 ->
    greedy (Cat r1 r2) (w1 ++ w2) s' g g2
| greedy_Named name r w s' g g' :
    greedy r w s' g g' ->
    greedy (Named name r) w s' g (<[name := str w]> g').

End Re.

Import Re.

(** ** The archive pattern *)

(** The nine named groups of the source pattern, in source order. *)
Definition S3_ARCHIVE_PATTERN : regex :=
  Cat (Named "org_id" (Rep [CRange "0" "9"] 1 None))
 (Cat (Lit "/")
 (Cat (Named "cluster_id"
         (Rep [CRange "0" "9"; CChar ","; CRange "a" "z"; CChar ","; CChar "-"]
              36 (Some 36)))
 (Cat (Lit "/")
      (Named "archive"
         (Cat (Named "timestamp"
                 (Cat (Named "year" (Rep [CRange "0" "9"] 4 (Some 4)))
                 (Cat (Named "month" (Rep [CRange "0" "9"] 2 (Some 2)))
                 (Cat (Named "day" (Rep [CRange "0" "9"] 2 (Some 2)))
                      (Named "time" (Rep [CRange "0" "9"] 6 (Some 6)))))))
         (Cat (Lit "-")
              (Named "id"
                 (Rep [CRange "a" "z"; CChar ","; CRange "A" "Z"; CChar ",";
                       CRange "0" "9"] 0 None)))))))).

(** The character sets of the pattern, by name. *)
Definition digit_class : char_class := [CRange "0" "9"].

Definition cluster_id_class : char_class :=
  [CRange "0" "9"; CChar ","; CRange "a" "z"; CChar ","; CChar "-"].

Definition id_class : char_class :=
  [CRange "a" "z"; CChar ","; CRange "A" "Z"; CChar ","; CRange "0" "9"].

Definition in_class (cls : char_class) (w : list ascii) : Prop :=
  Forall (fun c => class_mem cls c = true) w.

(** The characters the archive path convention gives a cluster id: digits,
    lowercase letters and hyphens. *)
Definition cluster_id_char (c : ascii) : bool :=
  class_mem [CRange "0" "9"; CRange "a" "z"; CChar "-"] c.

(** The [groupdict()] of a match, from the text of its groups; a group is
    entered when it closes. *)
Definition groupdict_of (org_id cluster_id year month day time id : list ascii)
    : gmap string string :=
  <["archive" := str ((year ++ month ++ day ++ time) ++ ["-"%char] ++ id)]>
  (<["id" := str id]>
  (<["timestamp" := str (year ++ month ++ day ++ time)]>
  (<["time" := str time]>
  (<["day" := str day]>
  (<["month" := str month]>
  (<["year" := str year]>
  (<["cluster_id" := str cluster_id]>
  (<["org_id" := str org_id]> ∅)))))))).

(** The text of a path of the archive shape, from its components and what
    follows them. *)
Definition path_text (org_id cluster_id year month day time id rest : list ascii)
    : list ascii :=
  org_id ++ ["/"%char] ++ cluster_id ++ ["/"%char]
  ++ (year ++ month ++ day ++ time) ++ ["-"%char] ++ id ++ rest.

(** The names of the groups of the pattern. *)
Definition group_names : gset string :=
  list_to_set ["org_id"; "cluster_id"; "archive"; "timestamp"; "year"; "month";
               "day"; "time"; "id"].

(** ** [collections.ChainMap] *)

Module ChainMap.

(** [ChainMap(m1, m2, ...)] is a view onto the maps it was given: a lookup
    searches them in that order and the first one that holds the key
    answers; a store goes into the first map. The view holds the maps
    themselves, not copies, so a value of this type is the view at one
    moment: the list of its maps as they are then. *)
Definition t : Type := list (gmap string string).

(** [cm.get(key)], also [cm[key]] with [None] for [KeyError]. *)
Fixpoint get (cm : t) (key : string) : option string :=
  match cm with
  | [] => None
  | m :: rest =>
      match m !! key with
      | Some v => Some v
      | None => get rest key
      end
  end.

(** [cm[key] = value] *)
Definition setitem (cm : t) (key value : string) : t :=
  match cm with
  | [] => [ {[key := value]} ]
  | m :: rest => <[key := value]> m :: rest
  end.

End ChainMap.

(** ** [json.dumps] on the values the engine serialises *)

Module Json.

#[warnings="-register-all"] Inductive value : Type :=
| JNull
| JString (s : string)
| JObject (fields : list (string * value)).

Definition dquote : string := String "034"%char EmptyString.

Definition hex_digit (n : nat) : ascii :=
  ascii_of_nat (if Nat.ltb n 10 then 48 + n else 87 + n).

(** Default [ensure_ascii=True] escaping of one character. *)
Definition escape_char (c : ascii) : string :=
  let n := nat_of_ascii c in
  if Nat.eqb n 34 then "\" +:+ dquote
  else if Nat.eqb n 92 then "\\"
  else if Nat.eqb n 10 then "\n"
  else if Nat.eqb n 13 then "\r"
  else if Nat.eqb n 9 then "\t"
  else if Nat.eqb n 12 then "\f"
  else if Nat.eqb n 8 then "\b"
  else if Nat.ltb n 32 || Nat.ltb 126 n
       then "\u00" +:+ String (hex_digit (n / 16)) (String (hex_digit (n mod 16)) "")
  else String c "".

Fixpoint escape (s : string) : string :=
  match s with
  | EmptyString => ""
  | String c s' => escape_char c +:+ escape s'
  end.

Definition quote (s : string) : string := dquote +:+ escape s +:+ dquote.

(** Default separators: [", "] between items and [": "] after a key. *)
Fixpoint dumps (v : value) : string :=
  match v with
  | JNull => "null"
  | JString s => quote s
  | JObject fields =>
      "{" +:+
      (fix items (first : bool) (fs : list (string * value)) : string :=
         match fs with
         | [] => ""
         | f :: rest =>
             (if first then "" else ", ")
             +:+ quote (fst f) +:+ ": " +:+ dumps (snd f) +:+ items false rest
         end) true fields
      +:+ "}"
  end.

End Json.

Import Json.

(** ** [SlicedTemplate] *)

Module SlicedTemplate.

(** Modelled from the spec: [ccx_messaging/utils/sliced_template.py], the
    class behind [archive_name_template], is not among the sources. The
    spec gives its contract: a template holds [$name] or [${name}]
    placeholders, each optionally followed by a slice suffix
    [[start:stop]] with the half-open semantics of sequence slicing
    (omitted [start] is 0, omitted [stop] is the length, negative indices
    count from the end); a placeholder whose name the variable source does
    not hold is left as it stands. The spec does not spell out what a name
    is: names are taken as identifiers (a letter or underscore followed by
    letters, digits and underscores), which is what the default template
    needs. The stage that resolves its target path with this class is said
    to add fields to the shared context while it works: resolving keeps, in
    the mapping it is given, the value of every sliced placeholder it
    resolves, under the text of that placeholder, [name[start:stop]]. *)

Definition is_digit (c : ascii) : bool := class_mem [CRange "0" "9"] c.

Definition is_id_start (c : ascii) : bool :=
  class_mem [CChar "_"; CRange "a" "z"; CRange "A" "Z"] c.

Definition is_id_char (c : ascii) : bool := is_id_start c || is_digit c.

(** [(start, stop)], each bound optional. *)
Definition slice : Type := (option Z * option Z)%type.

Definition clamp (len i : Z) : Z :=
  if (i <? 0)%Z then Z.max 0 (len + i) else Z.min i len.

(** [v[start:stop]] *)
Definition apply_slice (sl : slice) (v : list ascii) : list ascii :=
  let len := Z.of_nat (length v) in
  let a := clamp len (default 0%Z sl.1) in
  let b := clamp len (default len sl.2) in
  take (Z.to_nat (b - a)) (drop (Z.to_nat a) v).

(** Length of the longest prefix of [s] whose characters satisfy [p]. *)
Fixpoint run (p : ascii -> bool) (s : list ascii) : nat :=
  match s with
  | c :: s' => if p c then S (run p s') else 0
  | [] => 0
  end.

(** Length of the identifier [s] starts with, 0 when it starts with none. *)
Definition ident (s : list ascii) : nat :=
  match s with
  | c :: s' => if is_id_start c then S (run is_id_char s') else 0
  | [] => 0
  end.

Definition number (ds : list ascii) : Z :=
  fold_left (fun acc c => (10 * acc + Z.of_nat (nat_of_ascii c - 48))%Z) ds 0%Z.

(** An optional signed integer at the head of [s], with the number of
    characters it takes. *)
Definition bound (s : list ascii) : option Z * nat :=
  match s with
  | "-"%char :: s' =>
      let n := run is_digit s' in
      if Nat.eqb n 0 then (None, 0) else (Some (- number (take n s'))%Z, S n)
  | _ =>
      let n := run is_digit s in
      if Nat.eqb n 0 then (None, 0) else (Some (number (take n s)), n)
  end.

(** A slice suffix at the head of [s], with its length. *)
Definition slice_suffix (s : list ascii) : option (slice * nat) :=
  match s with
  | "["%char :: s1 =>
      let (a, n1) := bound s1 in
      match drop n1 s1 with
      | ":"%char :: s2 =>
          let (b, n2) := bound s2 in
          match drop n2 s2 with
          | "]"%char :: _ => Some ((a, b), n1 + n2 + 3)
          | _ => None
          end
      | _ => None
      end
  | _ => None
  end.

(** What follows a [$]: the name, the slice if there is one, and the number
    of characters of [s] the placeholder takes. *)
Definition placeholder (s : list ascii) : option (string * option slice * nat) :=
  match s with
  | "{"%char :: s1 =>
      let n := ident s1 in
      if Nat.eqb n 0 then None
      else match drop n s1 with
           | "}"%char :: s2 =>
               match slice_suffix s2 with
               | Some (sl, k) => Some (str (take n s1), Some sl, n + 2 + k)
               | None => Some (str (take n s1), None, n + 2)
               end
           | _ => None
           end
  | _ =>
      let n := ident s in
      if Nat.eqb n 0 then None
      else match slice_suffix (drop n s) with
           | Some (sl, k) => Some (str (take n s), Some sl, n + k)
           | None => Some (str (take n s), None, n)
           end
  end.

Definition sliced (sl : option slice) (v : string) : list ascii :=
  match sl with
  | Some sl => apply_slice sl (chars v)
  | None => chars v
  end.

(** One pass over the template; [skip] counts the characters of a
    placeholder that are still to be stepped over. *)
Fixpoint substitute_from (mapping : string -> option string) (skip : nat)
    (s : list ascii) : list ascii :=
  match s with
  | [] => []
  | c :: s' =>
      match skip with
      | S n => substitute_from mapping n s'
      | 0 =>
          if Ascii.eqb c "$" then
            match placeholder s' with
            | Some (name, sl, n) =>
                match mapping name with
                | Some v => sliced sl v ++ substitute_from mapping n s'
                | None => c :: take n s' ++ substitute_from mapping n s'
                end
            | None => c :: substitute_from mapping 0 s'
            end
          else c :: substitute_from mapping 0 s'
      end
  end.

Definition safe_substitute (template : string)
    (mapping : string -> option string) : string :=
  str (substitute_from mapping 0 (chars template)).

(** The template cut into the pieces the contract speaks of: plain
    characters, and placeholders with the text they were written as. *)
Inductive token : Type :=
| Text (c : ascii)
| Placeholder (raw : list ascii) (name : string) (sl : option slice).

Fixpoint tokens_from (skip : nat) (s : list ascii) : list token :=
  match s with
  | [] => []
  | c :: s' =>
      match skip with
      | S n => tokens_from n s'
      | 0 =>
          if Ascii.eqb c "$" then
            match placeholder s' with
            | Some (name, sl, n) =>
                Placeholder (c :: take n s') name sl :: tokens_from n s'
            | None => Text c :: tokens_from 0 s'
            end
          else Text c :: tokens_from 0 s'
      end
  end.

Definition tokens (template : string) : list token :=
  tokens_from 0 (chars template).

Definition raw_text (tk : token) : list ascii :=
  match tk with
  | Text c => [c]
  | Placeholder raw _ _ => raw
  end.

Definition resolve (mapping : string -> option string) (tk : token) : list ascii :=
  match tk with
  | Text c => [c]
  | Placeholder raw name sl =>
      match mapping name with
      | Some v => sliced sl v
      | None => raw
      end
  end.

(** An entry resolving keeps in the mapping: the sliced value of the variable
    [stored_name], under the key [stored_name[stored_slice]]. *)
Record stored : Type := mkStored {
  stored_name : string;
  stored_slice : string;
  stored_value : string
}.

Definition stored_key (e : stored) : string :=
  stored_name e +:+ "[" +:+ stored_slice e +:+ "]".

(** What follows the first opening bracket of [s]. *)
Fixpoint after_bracket (s : list ascii) : list ascii :=
  match s with
  | [] => []
  | c :: s' => if Ascii.eqb c "[" then s' else after_bracket s'
  end.

(** The text between the brackets of a sliced placeholder as written. *)
Definition slice_text (raw : list ascii) : string :=
  str (removelast (after_bracket raw)).

Definition stored_by (mapping : string -> option string) (tk : token) : list stored :=
  match tk with
  | Placeholder raw name (Some sl) =>
      match mapping name with
      | Some v => [mkStored name (slice_text raw) (str (apply_slice sl (chars v)))]
      | None => []
      end
  | _ => []
  end.

(** The entries [safe_substitute] keeps in the mapping, in template order. *)
Definition stores (template : string) (mapping : string -> option string)
    : list stored :=
  flat_map (stored_by mapping) (tokens template).

(** *** The contract, read on its own

    The reading of the contract that the resolver is measured against: how
    a bound is written, what it stands for, and what a slice selects. *)

(** A bound of a slice as written: left out, a run of digits, or a minus
    sign and a run of digits. *)
Inductive written_bound : Type :=
| Omitted
| FromStart (d : Decimal.uint)
| FromEnd (d : Decimal.uint).

Definition bound_text (w : written_bound) : list ascii :=
  match w with
  | Omitted => []
  | FromStart d => chars (NilEmpty.string_of_uint d)
  | FromEnd d => "-"%char :: chars (NilEmpty.string_of_uint d)
  end.

Definition bound_value (w : written_bound) : option Z :=
  match w with
  | Omitted => None
  | FromStart d => Some (Z.of_nat (Nat.of_uint d))
  | FromEnd d => Some (- Z.of_nat (Nat.of_uint d))%Z
  end.

(** A written bound has at least one digit. *)
Definition well_written (w : written_bound) : Prop :=
  match w with
  | Omitted => True
  | FromStart d | FromEnd d => d <> Decimal.Nil
  end.

(** [[start:stop]] as written. *)
Definition slice_written (start stop : written_bound) : list ascii :=
  "["%char :: bound_text start ++ ":"%char :: bound_text stop ++ ["]"%char].

(** The offset an index stands for in a value of [len] characters: a
    negative index counts from the end. *)
Definition position (len : nat) (i : Z) : nat :=
  if (i <? 0)%Z then len - Z.to_nat (- i) else Z.to_nat i.

(** [v[start:stop]]: the characters at offset [start] up to, and without,
    offset [stop]; a bound left out is the start, respectively the end. *)
Definition python_slice (start stop : option Z) (v : list ascii) : list ascii :=
  let a := match start with Some i => position (length v) i | None => 0 end in
  let b := match stop with Some i => position (length v) i | None => length v end in
  take (b - a) (drop a v).

(** A name as the contract has it: a letter or underscore, then letters,
    digits and underscores. *)
Definition is_identifier (name : list ascii) : Prop :=
  match name with
  | [] => False
  | c :: rest => is_id_start c = true /\ Forall (fun c => is_id_char c = true) rest
  end.

(** A template as the contract describes it, piece by piece: text without
    a dollar sign, a dollar sign that starts no placeholder, and a
    placeholder, [$name] or [${name}], with or without a slice suffix. *)
Inductive piece : Type :=
| Literal (text : list ascii)
| Dollar
| Var (braced : bool) (name : list ascii)
    (sl : option (written_bound * written_bound)).

(** The text of a piece. *)
Definition written (p : piece) : list ascii :=
  match p with
  | Literal text => text
  | Dollar => ["$"%char]
  | Var braced name sl =>
      "$"%char
      :: (if braced then "{"%char :: name ++ ["}"%char] else name)
      ++ match sl with
         | Some (start, stop) => slice_written start stop
         | None => []
         end
  end.

Definition written_all (ps : list piece) : list ascii :=
  concat (map written ps).

(** What the contract puts in the place of a piece: text stands for itself;
    a placeholder whose name the variable source holds becomes the value,
    sliced when it has a slice suffix; a placeholder whose name the source
    lacks stays as written. *)
Definition rendered (mapping : string -> option string) (p : piece)
    : list ascii :=
  match p with
  | Var _ name sl =>
      match mapping (str name) with
      | Some v =>
          match sl with
          | Some (start, stop) =>
              python_slice (bound_value start) (bound_value stop) (chars v)
          | None => chars v
          end
      | None => written p
      end
  | _ => written p
  end.

Definition rendered_all (mapping : string -> option string)
    (ps : list piece) : list ascii :=
  concat (map (rendered mapping) ps).

(** [s] goes on with a character of a name. *)
Definition continues_name (s : list ascii) : Prop :=
  match s with
  | c :: _ => is_id_char c = true
  | [] => False
  end.

(** [s] starts with a slice suffix. *)
Definition begins_slice (s : list ascii) : Prop :=
  exists start stop post,
    well_written start /\ well_written stop
    /\ s = slice_written start stop ++ post.

(** [s] starts with what makes a placeholder after a dollar sign. *)
Definition begins_placeholder (s : list ascii) : Prop :=
  exists name post,
    is_identifier name
    /\ (s = name ++ post \/ s = "{"%char :: name ++ "}"%char :: post).

Definition piece_ok (p : piece) : Prop :=
  match p with
  | Literal text => "$"%char ∉ text
  | Dollar => True
  | Var _ name sl =>
      is_identifier name
      /\ match sl with
         | Some (start, stop) => well_written start /\ well_written stop
         | None => True
         end
  end.

(** A piece takes as much of the template as it can: a bare dollar sign is
    followed by nothing that makes a placeholder, a name without braces by
    nothing that continues it, a placeholder without a slice suffix by
    nothing that is one. *)
Definition may_follow (p : piece) (rest : list ascii) : Prop :=
  match p with
  | Literal _ => True
  | Dollar => ~ begins_placeholder rest
  | Var braced _ None =>
      (braced = false -> ~ continues_name rest) /\ ~ begins_slice rest
  | Var _ _ (Some _) => True
  end.

(** The pieces are those of the template they spell. *)
Fixpoint well_formed (ps : list piece) : Prop :=
  match ps with
  | [] => True
  | p :: rest =>
      piece_ok p /\ may_follow p (written_all rest) /\ well_formed rest
  end.

End SlicedTemplate.

(** ** The engine *)

(** What [process] can raise. [CCXMessagingError] is the domain error of
    [ccx_messaging.error]; [KeyError] is Python's, raised by [broker[key]]
    and [del broker[key]] on a missing key; [Raised] stands for whatever
    exception an external collaborator raises. *)
Inductive exn : Type :=
| CCXMessagingError (msg : string)
| KeyError (key : string)
| Raised (what : string).

(** The report dictionary, in insertion order. *)
Definition report : Type := list (string * Json.value).

(** Second argument of [fire], after the broker. *)
Inductive fire_arg : Type :=
| ALocalPath (local_path : string)
| AException (e : exn)
| AReport (r : report).

(** Calls that leave the engine: a lifecycle hook fired on the watchers, a
    [watch_broker] call on one watcher, an upload. Each records the broker
    as it is at the time of the call. *)
Inductive event : Type :=
| Fire (hook : string) (broker : gmap string string) (arg : fire_arg)
| WatchBroker (watcher : string) (broker : gmap string string)
| UploadFile (local_path : string) (bucket : option string) (target_path : string).

(** The broker is the mapping the pipeline shares; its values are strings,
    as the [dict[str, str]] annotations of the module have it. *)
Record state : Type := mkState {
  broker : gmap string string;
  trace : list event
}.

Inductive result (A : Type) : Type :=
| Ok (a : A)
| Raise (e : exn).
Arguments Ok {A} a.
Arguments Raise {A} e.

(** State and exceptions: a computation runs from a state to a result and
    the state it leaves, also when it raises. *)
Definition M (A : Type) : Type := state -> result A * state.

Definition ret {A : Type} (a : A) : M A := fun st => (Ok a, st).

Definition raise {A : Type} (e : exn) : M A := fun st => (Raise e, st).

Definition bind {A B : Type} (m : M A) (f : A -> M B) : M B :=
  fun st =>
    match m st with
    | (Ok a, st') => f a st'
    | (Raise e, st') => (Raise e, st')
    end.

Notation "x <- m ;; k" := (bind m (fun x => k))
  (at level 100, m at next level, right associativity).
Notation "m ;;; k" := (bind m (fun _ => k))
  (at level 100, right associativity).

Definition get_broker : M (gmap string string) := fun st => (Ok (broker st), st).

Definition emit (ev : event) : M unit :=
  fun st => (Ok tt, mkState (broker st) (trace st ++ [ev])).

(** [broker[key]] *)
Definition broker_getitem (key : string) : M string :=
  fun st =>
    match broker st !! key with
    | Some v => (Ok v, st)
    | None => (Raise (KeyError key), st)
    end.

(** [del broker[key]] *)
Definition broker_delitem (key : string) : M unit :=
  fun st =>
    match broker st !! key with
    | Some _ => (Ok tt, mkState (delete key (broker st)) (trace st))
    | None => (Raise (KeyError key), st)
    end.

(** [self.fire(hook, broker, arg)]: the watchers are notified; what they do
    with the notification is theirs and does not come back to the engine. *)
Definition fire (hook : string) (arg : fire_arg) : M unit :=
  b <- get_broker ;; emit (Fire hook b arg).

(** [for w in self.watchers: w.watch_broker(broker)] *)
Fixpoint watch_all (ws : list string) : M unit :=
  match ws with
  | [] => ret tt
  | w :: rest => b <- get_broker ;; emit (WatchBroker w b) ;;; watch_all rest
  end.

(** The fields [__init__] sets. The two collaborators the engine holds are
    taken by the method the engine calls on them. The [safe_substitute] of
    the [SlicedTemplate] built from [archive_name_pattern] is taken in two
    parts, both read off the variable source it is given:
    [archive_name_template] is the text it returns and [template_stores]
    are the entries it keeps in that source. [uploader] is the
    [upload_file] of the [S3Uploader], [None] when the upload completes and
    [Some e] when it raises [e]. *)
Record S3UploadEngine : Type := mkEngine {
  watchers : list string;
  dest_bucket : option string;
  archives_path_prefix : option string;
  archive_name_template : (string -> option string) -> string;
  template_stores : (string -> option string) -> list SlicedTemplate.stored;
  uploader : string -> option string -> string -> option exn
}.

Definition default_archive_name_pattern : string :=
  "$cluster_id[:2]/$cluster_id/$year$month/$day/$time.tar.gz".

(** [__init__], with the watchers the engine is given afterwards and the
    uploader it builds from the credentials. *)
Definition init (watchers : list string) (dest_bucket archives_path_prefix : option string)
    (archive_name_pattern : string)
    (uploader : string -> option string -> string -> option exn) : S3UploadEngine :=
  mkEngine watchers dest_bucket archives_path_prefix
    (SlicedTemplate.safe_substitute archive_name_pattern)
    (SlicedTemplate.stores archive_name_pattern) uploader.

(** The same engine with another [archives_path_prefix]. *)
Definition with_prefix (self : S3UploadEngine) (prefix : option string) : S3UploadEngine :=
  mkEngine (watchers self) (dest_bucket self) prefix (archive_name_template self)
    (template_stores self) (uploader self).

(** [self.uploader.upload_file(local_path, bucket, target_path)] *)
Definition upload_file (self : S3UploadEngine) (local_path : string)
    (bucket : option string) (target_path : string) : M unit :=
  emit (UploadFile local_path bucket target_path) ;;;
  match uploader self local_path bucket target_path with
  | None => ret tt
  | Some e => raise e
  end.

Definition json_of (o : option string) : Json.value :=
  match o with
  | Some s => JString s
  | None => JNull
  end.

Definition create_metadata (components : ChainMap.t) : Json.value :=
  JObject [("cluster_id", json_of (ChainMap.get components "cluster_id"));
           ("external_organization", json_of (ChainMap.get components "org_id"))].

(** What [compute_target_path] returns, from the components as they are
    when it is called. *)
Definition compute_target_path (self : S3UploadEngine) (components : ChainMap.t) : string :=
  let path :=
    archive_name_template self (ChainMap.get components) in
  match archives_path_prefix self with
  | Some prefix => if String.eqb prefix "" then path else prefix +:+ "/" +:+ path
  | None => path
  end.

(** [components = ChainMap(broker, match_.groupdict())]: the view has the
    broker first, and the broker itself, so every use of [components] sees
    the broker as it then is. *)
Definition components (groupdict : gmap string string) : M ChainMap.t :=
  b <- get_broker ;; ret [b; groupdict].

(** [components[key] = value]: the store goes into the first map of the
    view, and that map is the broker. *)
Definition components_setitem (groupdict : gmap string string)
    (key value : string) : M unit :=
  fun st =>
    (Ok tt,
     mkState (hd (broker st) (ChainMap.setitem [broker st; groupdict] key value))
       (trace st)).

Fixpoint keep_all (groupdict : gmap string string)
    (entries : list SlicedTemplate.stored) : M unit :=
  match entries with
  | [] => ret tt
  | e :: rest =>
      components_setitem groupdict (SlicedTemplate.stored_key e)
        (SlicedTemplate.stored_value e) ;;;
      keep_all groupdict rest
  end.

(** The call [self.compute_target_path(components)]: its [safe_substitute]
    reads the components, keeps its entries in them, which is in the
    broker, and the call returns the target path. *)
Definition call_compute_target_path (self : S3UploadEngine)
    (groupdict : gmap string string) : M string :=
  cm <- components groupdict ;;
  keep_all groupdict (template_stores self (ChainMap.get cm)) ;;;
  ret (compute_target_path self cm).

Definition process (self : S3UploadEngine) (local_path : string) : M string :=
  fire "pre_extract" (ALocalPath local_path) ;;;
  s3_path <- broker_getitem "s3_path" ;;
  watch_all (watchers self) ;;;
  match re_match S3_ARCHIVE_PATTERN s3_path with
  | None =>
      let exception := CCXMessagingError "Archive pattern name incorrect" in
      fire "on_engine_failure" (AException exception) ;;;
      raise exception
  | Some groupdict =>
      target_path <- call_compute_target_path self groupdict ;;
      upload_file self local_path (dest_bucket self) target_path ;;;
      cm <- components groupdict ;;
      let metadata := create_metadata cm in
      let report :=
        [("path", JString target_path);
         ("original_path", JString s3_path);
         ("metadata", metadata)] in
      fire "on_engine_success" (AReport report) ;;;
      broker_delitem "cluster_id" ;;;
      broker_delitem "s3_path" ;;;
      ret (Json.dumps (JObject report))
  end.

(** One invocation of [process] on broker [b], from an empty trace. *)
Definition run_process (self : S3UploadEngine) (b : gmap string string)
    (local_path : string) : result string * state :=
  process self local_path (mkState b []).

Definition result_of (self : S3UploadEngine) (b : gmap string string)
    (local_path : string) : result string :=
  (run_process self b local_path).1.

Definition broker_after (self : S3UploadEngine) (b : gmap string string)
    (local_path : string) : gmap string string :=
  broker (run_process self b local_path).2.

Definition trace_of (self : S3UploadEngine) (b : gmap string string)
    (local_path : string) : list event :=
  trace (run_process self b local_path).2.

(** Observations on a trace. *)
Definition is_fire (hook : string) (ev : event) : bool :=
  match ev with
  | Fire h _ _ => String.eqb h hook
  | _ => false
  end.

Definition is_upload (ev : event) : bool :=
  match ev with
  | UploadFile _ _ _ => true
  | _ => false
  end.

Definition is_watch_broker (ev : event) : bool :=
  match ev with
  | WatchBroker _ _ => true
  | _ => false
  end.

Definition count_fires (hook : string) (tr : list event) : nat :=
  length (List.filter (is_fire hook) tr).

Definition count_uploads (tr : list event) : nat :=
  length (List.filter is_upload tr).

(** The target paths of the uploads of a trace, in order. *)
Definition upload_targets (tr : list event) : list string :=
  omap (fun ev => match ev with
                  | UploadFile _ _ target_path => Some target_path
                  | _ => None
                  end) tr.

(** The broker with the entries of a template call kept in it. *)
Definition store_all (entries : list SlicedTemplate.stored)
    (b : gmap string string) : gmap string string :=
  foldl (fun acc e =>
           <[SlicedTemplate.stored_key e := SlicedTemplate.stored_value e]> acc)
    b entries.

(** The broker as [compute_target_path] leaves it, when it was [b] and the
    match gave [groupdict]. *)
Definition after_template (self : S3UploadEngine) (b groupdict : gmap string string)
    : gmap string string :=
  store_all (template_stores self (ChainMap.get [b; groupdict])) b.

(** The error of the pattern-mismatch branch. *)
Definition mismatch : exn := CCXMessagingError "Archive pattern name incorrect".

(** The report [process] builds. *)
Definition report_of (target_path s3_path : string) (components : ChainMap.t) : report :=
  [("path", JString target_path);
   ("original_path", JString s3_path);
   ("metadata", create_metadata components)].

(** The events every invocation that finds [s3_path] starts with. *)
Definition prologue (self : S3UploadEngine) (b : gmap string string)
    (local_path : string) : list event :=
  Fire "pre_extract" b (ALocalPath local_path)
  :: map (fun w => WatchBroker w b) (watchers self).

(** ** Sample data *)

Module Sample.

(** The path of the end-to-end example; its cluster segment has 38
    characters. *)
Definition path_38 : string :=
  "123/abcdefabcd-efab-cdef-abcd-efabcdefabcd/20240101120000-xyz123".

(** The same with a cluster id of 36 characters. *)
Definition cluster_36 : string := "abcdefab-cdef-abcd-efab-cdefabcdefab".

Definition path_36 : string :=
  "123/abcdefab-cdef-abcd-efab-cdefabcdefab/20240101120000-xyz123".

Definition target_36 : string :=
  "ab/abcdefab-cdef-abcd-efab-cdefabcdefab/202401/01/120000.tar.gz".

(** Commas where the hyphens of a cluster id go. *)
Definition cluster_commas : string := "abcdefab,cdef,abcd,efab,cdefabcdefab".

Definition path_commas : string :=
  "123/abcdefab,cdef,abcd,efab,cdefabcdefab/20240101120000-xyz123".

Definition groups_36 : gmap string string :=
  groupdict_of (chars "123") (chars cluster_36) (chars "2024") (chars "01")
    (chars "01") (chars "120000") (chars "xyz123").

Definition engine_ok : S3UploadEngine :=
  init ["stats"] (Some "archives") None default_archive_name_pattern
    (fun _ _ _ => None).

Definition engine_upload_fails : S3UploadEngine :=
  init ["stats"] (Some "archives") None default_archive_name_pattern
    (fun _ _ _ => Some (Raised "upload failed")).

(** An engine whose template is the one variable [key], with no prefix. *)
Definition engine_of_variable (key : string) : S3UploadEngine :=
  mkEngine ["stats"] (Some "archives") None (fun look => default "" (look key))
    (fun _ => []) (fun _ _ _ => None).

Definition target_other_cluster : string :=
  "ff/ffffffff-cdef-abcd-efab-cdefabcdefab/202401/01/120000.tar.gz".

Definition broker_38 : gmap string string := {["s3_path" := path_38]}.

Definition broker_path_only : gmap string string := {["s3_path" := path_36]}.

Definition broker_36 : gmap string string :=
  <["cluster_id" := cluster_36]> {["s3_path" := path_36]}.

Definition broker_other_cluster : gmap string string :=
  <["cluster_id" := "ffffffff-cdef-abcd-efab-cdefabcdefab"]> {["s3_path" := path_36]}.

Definition broker_with_org : gmap string string :=
  <["org_id" := "999"]> broker_36.

Definition broker_invalid : gmap string string :=
  {["s3_path" := "not-a-valid-path"]}.

End Sample.

(** * Properties *)

(** ** The matcher against the declarative reading *)

Module ReFacts.

Lemma backtrack_Some {R : Type} (k : nat -> option R) lo n x :
  backtrack k lo n = Some x -> exists j, lo <= j <= n /\ k j = Some x.
Proof.
  induction n as [|n IH]; simpl.
  - destruct (Nat.ltb_spec 0 lo); [discriminate|].
    destruct (k 0) eqn:E; [|discriminate].
    intros [= <-]. exists 0. split; [lia|done].
  - destruct (Nat.ltb_spec (S n) lo); [discriminate|].
    destruct (k (S n)) eqn:E.
    + intros [= <-]. exists (S n). split; [lia|done].
    + intros H1. destruct (Nat.ltb_spec n lo) as [Hlt|Hge].
      * destruct n; simpl in H1.
        -- destruct (Nat.ltb_spec 0 lo); [discriminate|lia].
        -- destruct (Nat.ltb_spec (S n) lo); [discriminate|lia].
      * destruct (IH H1) as (j & Hj & Hk). exists j. split; [lia|done].
Qed.

Lemma span_prefix cls s : forall hi j,
  j <= span cls hi s ->
  Forall (fun c => class_mem cls c = true) (take j s)
  /\ j <= length s
  /\ (forall h, hi = Some h -> j <= h).
Proof.
  induction s as [|c s IH]; intros hi j Hj.
  - assert (j = 0) as -> by (destruct hi as [[|h]|]; simpl in Hj; lia).
    repeat split; [constructor|simpl; lia|intros; lia].
  - destruct j as [|j].
    { repeat split; [constructor|simpl; lia|intros; lia]. }
    destruct hi as [[|h]|]; simpl in Hj; try lia.
    + destruct (class_mem cls c) eqn:Hc; [|lia].
      destruct (IH (Some h) j) as (HF & Hl & Hh); [lia|].
      repeat split; [simpl; constructor; done|simpl; lia|].
      intros h' [= <-]. specialize (Hh h eq_refl). lia.
    + destruct (class_mem cls c) eqn:Hc; [|lia].
      destruct (IH None j) as (HF & Hl & Hh); [lia|].
      repeat split; [simpl; constructor; done|simpl; lia|].
      intros h' [=].
Qed.

(** Soundness: whatever the matcher accepts splits the subject into a
    matched word and the rest handed to the continuation. *)
Lemma rmatch_sound {R : Type} r : forall s g (k : list ascii -> gmap string string -> option R) x,
  rmatch r s g k = Some x ->
  exists w s' g', s = w ++ s' /\ matches r w g g' /\ k s' g' = Some x.
Proof.
  induction r as [|c|cls lo hi|r1 IH1 r2 IH2|name r IH]; intros s g k x H; simpl in H.
  - exists [], s, g. repeat split; [constructor|done].
  - destruct s as [|c' s]; [discriminate|].
    destruct (Ascii.eqb_spec c' c) as [->|]; [|discriminate].
    exists [c], s, g. repeat split; [constructor|done].
  - apply backtrack_Some in H as (j & [Hlo Hj] & Hk).
    destruct (span_prefix _ _ _ _ Hj) as (HF & Hl & Hh).
    exists (take j s), (drop j s), g. split; [by rewrite take_drop|].
    split; [|done].
    constructor; [done|rewrite length_take; lia|].
    intros h Hhi. rewrite length_take. specialize (Hh h Hhi). lia.
  - apply IH1 in H as (w1 & s1 & g1 & -> & Hm1 & H).
    apply IH2 in H as (w2 & s2 & g2 & -> & Hm2 & H).
    exists (w1 ++ w2), s2, g2. split; [by rewrite <- app_assoc|].
    split; [econstructor; eassumption|done].
  - apply IH in H as (w & s' & g' & -> & Hm & H).
    exists w, s', (<[name := str w]> g'). split; [done|].
    split; [by constructor|].
    rewrite length_app, Nat.add_sub, take_app_length in H. done.
Qed.

Ltac inv_matches :=
  repeat match goal with
    | H : matches (Cat _ _) _ _ _ |- _ => inversion H; subst; clear H
    | H : matches (Named _ _) _ _ _ |- _ => inversion H; subst; clear H
    | H : matches (Lit _) _ _ _ |- _ => inversion H; subst; clear H
    | H : matches (Rep _ _ _) _ _ _ |- _ => inversion H; subst; clear H
    end.

(** What a successful match of the archive pattern says about the path
    and about the groups. *)
Lemma S3_match_sound p g :
  re_match S3_ARCHIVE_PATTERN p = Some g ->
  exists org cid year month day time id rest,
    chars p = org ++ ["/"%char] ++ cid ++ ["/"%char]
              ++ (year ++ month ++ day ++ time) ++ ["-"%char] ++ id ++ rest
    /\ g = groupdict_of org cid year month day time id
    /\ (1 <= length org /\ in_class digit_class org)
    /\ (length cid = 36 /\ in_class cluster_id_class cid)
    /\ (length year = 4 /\ in_class digit_class year)
    /\ (length month = 2 /\ in_class digit_class month)
    /\ (length day = 2 /\ in_class digit_class day)
    /\ (length time = 6 /\ in_class digit_class time)
    /\ in_class id_class id.
Proof.
  unfold re_match. intros H.
  apply rmatch_sound in H as (w & rest & g' & Hp & Hm & [= <-]).
  unfold S3_ARCHIVE_PATTERN in Hm. inv_matches.
  repeat match goal with
         | H : forall h, Some ?n = Some h -> _ |- _ => specialize (H n eq_refl)
         end.
  match type of Hp with
  | _ = (?a ++ _ ++ ?c ++ _ ++ (?y ++ ?m ++ ?d ++ ?t) ++ _ ++ ?i) ++ _ =>
      exists a, c, y, m, d, t, i, rest
  end.
  split; [rewrite Hp; rewrite <- ?app_assoc; reflexivity|].
  split; [unfold groupdict_of; reflexivity|].
  unfold in_class, digit_class, cluster_id_class, id_class.
  repeat split; (assumption || lia).
Qed.

Lemma groupdict_of_lookup org cid year month day time id :
  let g := groupdict_of org cid year month day time id in
  g !! "org_id" = Some (str org)
  /\ g !! "cluster_id" = Some (str cid)
  /\ g !! "year" = Some (str year)
  /\ g !! "month" = Some (str month)
  /\ g !! "day" = Some (str day)
  /\ g !! "time" = Some (str time)
  /\ g !! "id" = Some (str id).
Proof.
  unfold groupdict_of. cbv zeta.
  repeat split;
    repeat (rewrite lookup_insert_ne by discriminate);
    apply lookup_insert_eq.
Qed.

Lemma backtrack_complete {R : Type} (k : nat -> option R) lo n j x :
  lo <= j <= n -> k j = Some x -> is_Some (backtrack k lo n).
Proof.
  revert j. induction n as [|n IH]; intros j Hj Hk; simpl.
  - assert (j = 0) as -> by lia.
    destruct (Nat.ltb_spec 0 lo); [lia|]. rewrite Hk. eauto.
  - destruct (Nat.ltb_spec (S n) lo); [lia|].
    destruct (k (S n)) eqn:E; [eauto|].
    assert (j <> S n) by congruence.
    eapply IH; [|exact Hk]. lia.
Qed.

Lemma span_covers cls w s' : forall hi,
  Forall (fun c => class_mem cls c = true) w ->
  (forall h, hi = Some h -> length w <= h) ->
  length w <= span cls hi (w ++ s').
Proof.
  induction w as [|c w IH]; intros hi HF Hh; [simpl; lia|].
  inversion HF as [|? ? Hc HF']; subst.
  destruct hi as [[|h]|]; simpl.
  - specialize (Hh 0 eq_refl). simpl in Hh. lia.
  - rewrite Hc. apply le_n_S, IH; [done|].
    intros h' [= <-]. specialize (Hh (S h) eq_refl). simpl in Hh. lia.
  - rewrite Hc. apply le_n_S, IH; [done|]. intros h' [=].
Qed.

(** Completeness: when some split of the subject is accepted by the
    continuation, the matcher finds a match. *)
Lemma rmatch_complete r w g g' :
  matches r w g g' ->
  forall (R : Type) (k : list ascii -> gmap string string -> option R) s' x,
    k s' g' = Some x -> is_Some (rmatch r (w ++ s') g k).
Proof.
  induction 1 as [g|c g|cls lo hi w g HF Hlo Hhi|r1 r2 w1 w2 g g1 g2 _ IH1 _ IH2
                  |name r w g g' _ IH]; intros R k s' x Hk; simpl.
  - eauto.
  - rewrite Ascii.eqb_refl. eauto.
  - apply (backtrack_complete _ lo _ (length w) x).
    + split; [done|]. by apply span_covers.
    + by rewrite drop_app_length.
  - destruct (IH2 R k s' x Hk) as [x2 H2].
    rewrite <- app_assoc. by eapply IH1.
  - eapply IH. rewrite length_app, Nat.add_sub, take_app_length. exact Hk.
Qed.

Ltac build_matches :=
  repeat match goal with
    | |- matches (Cat _ _) _ _ _ => eapply matches_Cat
    | |- matches (Named _ _) _ _ _ => eapply matches_Named
    | |- matches (Lit _) _ _ _ => eapply matches_Lit
    | |- matches (Rep _ _ _) _ _ _ => eapply matches_Rep
    end.

(** Every path of the shape the pattern describes is matched. *)
Lemma S3_match_complete org cid year month day time id rest :
  1 <= length org /\ in_class digit_class org ->
  length cid = 36 /\ in_class cluster_id_class cid ->
  length year = 4 /\ in_class digit_class year ->
  length month = 2 /\ in_class digit_class month ->
  length day = 2 /\ in_class digit_class day ->
  length time = 6 /\ in_class digit_class time ->
  in_class id_class id ->
  is_Some (re_match S3_ARCHIVE_PATTERN
             (str (org ++ ["/"%char] ++ cid ++ ["/"%char]
                   ++ (year ++ month ++ day ++ time) ++ ["-"%char] ++ id ++ rest))).
Proof.
  intros [Ho1 Ho2] [Hc1 Hc2] [Hy1 Hy2] [Hm1 Hm2] [Hd1 Hd2] [Ht1 Ht2] Hi.
  unfold re_match. rewrite list_ascii_of_string_of_list_ascii.
  replace (org ++ ["/"%char] ++ cid ++ ["/"%char]
           ++ (year ++ month ++ day ++ time) ++ ["-"%char] ++ id ++ rest)
    with ((org ++ ["/"%char] ++ cid ++ ["/"%char]
           ++ ((year ++ month ++ day ++ time) ++ ["-"%char] ++ id)) ++ rest)
    by (rewrite <- ?app_assoc; reflexivity).
  eapply rmatch_complete; [|reflexivity].
  unfold S3_ARCHIVE_PATTERN. build_matches;
    try assumption; try lia; try (intros ? [= <-]; lia); try (intros ? [=]).
Qed.

Lemma digits_then_slash (a a' r r' : list ascii) :
  in_class digit_class a -> in_class digit_class a' ->
  a ++ "/"%char :: r = a' ++ "/"%char :: r' ->
  a = a' /\ r = r'.
Proof.
  revert a'. induction a as [|c a IH]; intros a' Ha Ha' H.
  - destruct a' as [|c' a']; simpl in H.
    + by injection H.
    + injection H as <- _. inversion Ha' as [|? ? Hc _]. discriminate Hc.
  - destruct a' as [|c' a']; simpl in H.
    + injection H as -> _. inversion Ha as [|? ? Hc _]. discriminate Hc.
    + injection H as <- H. inversion Ha; inversion Ha'; subst.
      destruct (IH a') as [-> ->]; done.
Qed.

Lemma cluster_id_char_in_class c :
  cluster_id_char c = true -> class_mem cluster_id_class c = true.
Proof.
  unfold cluster_id_char, cluster_id_class, class_mem. simpl.
  intros H. repeat (apply orb_prop in H as [H|H]); rewrite ?H, ?orb_true_r; done.
Qed.

Lemma cluster_id_class_members c :
  class_mem cluster_id_class c = true -> cluster_id_char c = true \/ c = ","%char.
Proof.
  unfold cluster_id_char, cluster_id_class, class_mem. simpl.
  intros H. repeat (apply orb_prop in H as [H|H]);
    try (left; rewrite ?H, ?orb_true_r; done);
    try (right; by apply Ascii.eqb_eq).
Qed.

(** The half of C6 the code keeps: a matched cluster id has 36 characters,
    each a digit, a lowercase letter, a hyphen or a comma. *)
Lemma cluster_id_group_sound p g :
  re_match S3_ARCHIVE_PATTERN p = Some g ->
  exists cid,
    g !! "cluster_id" = Some (str cid)
    /\ length cid = 36
    /\ Forall (fun c => cluster_id_char c = true \/ c = ","%char) cid.
Proof.
  intros H.
  destruct (S3_match_sound _ _ H)
    as (org & cid & y & mo & d & t & i & rest & _ & -> & _ & [Hl Hc] & _).
  exists cid. split; [apply groupdict_of_lookup|]. split; [done|].
  eapply Forall_impl; [exact Hc|]. apply cluster_id_class_members.
Qed.

(** The other half the code keeps: every 36-character token of digits,
    lowercase letters and hyphens is matched as the cluster id. *)
Lemma cluster_id_tokens_accepted org cid year month day time id rest :
  1 <= length org /\ in_class digit_class org ->
  length cid = 36 /\ Forall (fun c => cluster_id_char c = true) cid ->
  length year = 4 /\ in_class digit_class year ->
  length month = 2 /\ in_class digit_class month ->
  length day = 2 /\ in_class digit_class day ->
  length time = 6 /\ in_class digit_class time ->
  in_class id_class id ->
  exists g,
    re_match S3_ARCHIVE_PATTERN
      (str (org ++ ["/"%char] ++ cid ++ ["/"%char]
            ++ (year ++ month ++ day ++ time) ++ ["-"%char] ++ id ++ rest)) = Some g
    /\ g !! "cluster_id" = Some (str cid).
Proof.
  intros Ho [Hc1 Hc2] Hy Hm Hd Ht Hi.
  assert (Hc : in_class cluster_id_class cid)
    by (eapply Forall_impl; [exact Hc2|]; apply cluster_id_char_in_class).
  destruct (S3_match_complete org cid year month day time id rest) as [g Hg];
    try done.
  exists g. split; [exact Hg|].
  destruct (S3_match_sound _ _ Hg)
    as (org' & cid' & y' & mo' & d' & t' & i' & rest' & Hp & -> & [_ Ho'] & [Hl' _] & _).
  rewrite list_ascii_of_string_of_list_ascii in Hp.
  destruct Ho as [_ Ho].
  apply digits_then_slash in Hp as [_ Hp]; [|done..].
  apply app_inj_1 in Hp as [-> _]; [|lia].
  apply groupdict_of_lookup.
Qed.

End ReFacts.

(** ** One invocation of [process], path by path *)

Lemma watch_all_run b ws tr :
  watch_all ws (mkState b tr)
  = (Ok tt, mkState b (tr ++ map (fun w => WatchBroker w b) ws)).
Proof.
  revert tr. induction ws as [|w ws IH]; intros tr; simpl.
  - by rewrite app_nil_r.
  - unfold bind, get_broker, emit. simpl. rewrite IH.
    by rewrite <- app_assoc.
Qed.

(** What a template call keeps in the broker: its keys hold an opening
    bracket, so it replaces no key without one, and it removes nothing. *)
Lemma chars_append (a b : string) : chars (a +:+ b) = chars a ++ chars b.
Proof.
  induction a as [|c a IH]; [done|].
  change (c :: chars (a +:+ b) = c :: chars a ++ chars b). by rewrite IH.
Qed.

Lemma stored_key_bracket e : "["%char ∈ chars (SlicedTemplate.stored_key e).
Proof.
  unfold SlicedTemplate.stored_key. rewrite !chars_append.
  apply elem_of_app. right. apply elem_of_app. left. by constructor.
Qed.

Lemma store_all_plain entries : forall b k,
  "["%char ∉ chars k -> store_all entries b !! k = b !! k.
Proof.
  induction entries as [|e entries IH]; intros b k Hk; [done|].
  unfold store_all in *. cbn [foldl]. rewrite IH by done.
  apply lookup_insert_ne. intros <-. apply Hk, stored_key_bracket.
Qed.

Lemma store_all_keeps entries : forall b k,
  is_Some (b !! k) -> is_Some (store_all entries b !! k).
Proof.
  induction entries as [|e entries IH]; intros b k Hk; [done|].
  unfold store_all in *. cbn [foldl]. apply IH.
  rewrite lookup_insert. by case_decide.
Qed.

Lemma after_template_plain self b groupdict k :
  "["%char ∉ chars k -> after_template self b groupdict !! k = b !! k.
Proof. apply store_all_plain. Qed.

Lemma after_template_keeps self b groupdict k :
  is_Some (b !! k) -> is_Some (after_template self b groupdict !! k).
Proof. apply store_all_keeps. Qed.

Lemma keep_all_run groupdict entries : forall b tr,
  keep_all groupdict entries (mkState b tr)
  = (Ok tt, mkState (store_all entries b) tr).
Proof.
  induction entries as [|e entries IH]; intros b tr; [done|].
  cbn [keep_all]. unfold bind, components_setitem. cbn. by rewrite IH.
Qed.

Ltac plain_key := vm_compute; intros Hin; repeat (inversion Hin as [|? ? ? Hin']; subst; clear Hin; rename Hin' into Hin); inversion Hin.

(** [process] run symbolically: the five ways an invocation can go. *)
Lemma run_process_paths self b local_path :
  run_process self b local_path =
  match b !! "s3_path" with
  | None =>
      (Raise (KeyError "s3_path"),
       mkState b [Fire "pre_extract" b (ALocalPath local_path)])
  | Some s3_path =>
      let pro := prologue self b local_path in
      match re_match S3_ARCHIVE_PATTERN s3_path with
      | None =>
          (Raise mismatch,
           mkState b (pro ++ [Fire "on_engine_failure" b (AException mismatch)]))
      | Some groupdict =>
          let target_path := compute_target_path self [b; groupdict] in
          let b' := after_template self b groupdict in
          let upload := UploadFile local_path (dest_bucket self) target_path in
          match uploader self local_path (dest_bucket self) target_path with
          | Some e => (Raise e, mkState b' (pro ++ [upload]))
          | None =>
              let r := report_of target_path s3_path [b'; groupdict] in
              let tr := pro ++ [upload; Fire "on_engine_success" b' (AReport r)] in
              match b !! "cluster_id" with
              | None => (Raise (KeyError "cluster_id"), mkState b' tr)
              | Some _ =>
                  (Ok (Json.dumps (JObject r)),
                   mkState (delete "s3_path" (delete "cluster_id" b')) tr)
              end
          end
      end
  end.
Proof.
  unfold run_process, process, bind at 1 2, fire, bind, get_broker, emit,
    broker_getitem, prologue. simpl.
  destruct (b !! "s3_path") as [s3_path|] eqn:Hp; [|done].
  rewrite watch_all_run. simpl.
  destruct (re_match S3_ARCHIVE_PATTERN s3_path) as [groupdict|]; [|done].
  unfold call_compute_target_path, components, bind, get_broker, ret.
  cbn -[ChainMap.get store_all compute_target_path].
  rewrite keep_all_run. fold (after_template self b groupdict).
  unfold upload_file, bind, emit, raise, ret.
  cbn -[ChainMap.get store_all compute_target_path after_template create_metadata].
  destruct (uploader self local_path (dest_bucket self) _) as [e|]; [done|].
  unfold broker_delitem.
  cbn -[ChainMap.get store_all compute_target_path after_template create_metadata].
  assert (Hc' : after_template self b groupdict !! "cluster_id" = b !! "cluster_id")
    by (apply after_template_plain; plain_key).
  assert (Hp' : after_template self b groupdict !! "s3_path" = Some s3_path)
    by (rewrite <- Hp; apply after_template_plain; plain_key).
  rewrite Hc'.
  destruct (b !! "cluster_id") as [cid|] eqn:Hc;
    cbn -[ChainMap.get store_all compute_target_path after_template create_metadata].
  - rewrite lookup_delete_ne by done. rewrite Hp'.
    cbn -[ChainMap.get store_all compute_target_path after_template create_metadata].
    by rewrite <- ?app_assoc.
  - by rewrite <- ?app_assoc.
Qed.

(** ** Counting on traces *)

Lemma count_fires_app hook t1 t2 :
  count_fires hook (t1 ++ t2) = count_fires hook t1 + count_fires hook t2.
Proof. unfold count_fires. by rewrite List.filter_app, length_app. Qed.

Lemma count_uploads_app t1 t2 :
  count_uploads (t1 ++ t2) = count_uploads t1 + count_uploads t2.
Proof. unfold count_uploads. by rewrite List.filter_app, length_app. Qed.

Lemma count_fires_prologue hook self b local_path :
  count_fires hook (prologue self b local_path)
  = if String.eqb "pre_extract" hook then 1 else 0.
Proof.
  unfold prologue, count_fires.
  assert (List.filter (is_fire hook) (map (fun w => WatchBroker w b) (watchers self)) = [])
    as Hw by (induction (watchers self); simpl; done).
  cbn [List.filter is_fire]. rewrite Hw.
  by destruct (String.eqb "pre_extract" hook).
Qed.

Lemma count_uploads_prologue self b local_path :
  count_uploads (prologue self b local_path) = 0.
Proof.
  unfold prologue, count_uploads. simpl.
  induction (watchers self); simpl; done.
Qed.

Ltac count_trace :=
  rewrite ?count_fires_app, ?count_uploads_app,
    ?count_fires_prologue, ?count_uploads_prologue;
  unfold count_fires, count_uploads; simpl.

Ltac run_paths :=
  unfold result_of, broker_after, trace_of; rewrite ?run_process_paths.


(** ** Facts about the sample data *)

Lemma path_36_matches :
  re_match S3_ARCHIVE_PATTERN Sample.path_36 = Some Sample.groups_36.
Proof. compute_done. Qed.

Lemma path_38_does_not_match :
  re_match S3_ARCHIVE_PATTERN Sample.path_38 = None.
Proof. vm_compute. reflexivity. Qed.

(** ** C1: precedence in the layered variable source *)

Lemma group_key_plain p g k v :
  re_match S3_ARCHIVE_PATTERN p = Some g -> g !! k = Some v -> "["%char ∉ chars k.
Proof.
  intros Hm Hk.
  destruct (ReFacts.S3_match_sound _ _ Hm)
    as (org & c & y & mo & d & t & i & rest & _ & -> & _).
  unfold groupdict_of in Hk.
  repeat (rewrite lookup_insert in Hk; case_decide; [subst k; plain_key|]).
  by rewrite lookup_empty in Hk.
Qed.

(** C1, as stated, fails: with [cluster_id] in both the broker and the match
    groups, [process] uploads under the broker's value and reports the
    broker's value, not the matched one. *)
Lemma C1_match_groups_do_not_win :
  Sample.broker_other_cluster !! "cluster_id"
    = Some "ffffffff-cdef-abcd-efab-cdefabcdefab"
  /\ (re_match S3_ARCHIVE_PATTERN Sample.path_36 ≫= (.!! "cluster_id"))
     = Some Sample.cluster_36
  /\ upload_targets
       (trace_of Sample.engine_ok Sample.broker_other_cluster "/tmp/archive")
     = [Sample.target_other_cluster]
  /\ result_of Sample.engine_ok Sample.broker_other_cluster "/tmp/archive"
     = Ok (Json.dumps
             (JObject [("path", JString Sample.target_other_cluster);
                       ("original_path", JString Sample.path_36);
                       ("metadata",
                        JObject [("cluster_id",
                                  JString "ffffffff-cdef-abcd-efab-cdefabcdefab");
                                 ("external_organization", JString "123")])])).
Proof. repeat split; vm_compute; reflexivity. Qed.

(** C1 (amended): [process] computes the target path and, later, the
    metadata from [ChainMap(broker, match_.groupdict())], in which a key
    held by both the broker and the match groups is answered with the
    broker's value: the archive is uploaded under the path computed from
    that source (under the broker's value itself when the template is that
    one variable), and the report fired after the upload is built from it. *)
Theorem C1_broker_value_wins self b local_path s3_path groupdict k vb vg :
  b !! "s3_path" = Some s3_path ->
  re_match S3_ARCHIVE_PATTERN s3_path = Some groupdict ->
  b !! k = Some vb ->
  groupdict !! k = Some vg ->
  ChainMap.get [b; groupdict] k = Some vb
  /\ UploadFile local_path (dest_bucket self) (compute_target_path self [b; groupdict])
       ∈ trace_of self b local_path
  /\ ((forall look, archive_name_template self look = default "" (look k)) ->
      archives_path_prefix self = None ->
      UploadFile local_path (dest_bucket self) vb ∈ trace_of self b local_path)
  /\ (uploader self local_path (dest_bucket self)
        (compute_target_path self [b; groupdict]) = None ->
      exists b',
        ChainMap.get [b'; groupdict] k = Some vb
        /\ Fire "on_engine_success" b'
             (AReport (report_of (compute_target_path self [b; groupdict]) s3_path
                         [b'; groupdict]))
             ∈ trace_of self b local_path).
Proof.
  intros Hp Hm Hb Hg.
  assert (Hget : ChainMap.get [b; groupdict] k = Some vb)
    by (cbn [ChainMap.get]; by rewrite Hb).
  assert (Hup : UploadFile local_path (dest_bucket self)
                  (compute_target_path self [b; groupdict])
                  ∈ trace_of self b local_path).
  { run_paths. rewrite Hp, Hm. cbv zeta.
    destruct (uploader self local_path (dest_bucket self) _).
    - cbn [snd trace]. apply elem_of_app. right. by constructor.
    - destruct (b !! "cluster_id"); cbn [snd trace];
        apply elem_of_app; right; by constructor. }
  split; [exact Hget|]. split; [exact Hup|]. split.
  - intros Htpl Hpre. revert Hup. unfold compute_target_path.
    by rewrite Hpre, Htpl, Hget.
  - intros Hu. exists (after_template self b groupdict). split.
    + cbn [ChainMap.get]. rewrite after_template_plain, Hb; [done|].
      by eapply group_key_plain.
    + run_paths. rewrite Hp, Hm. cbv zeta. rewrite Hu.
      destruct (b !! "cluster_id"); cbn [snd trace];
        apply elem_of_app; right; right; by constructor.
Qed.

Lemma C1_broker_value_wins_witness :
  Sample.broker_other_cluster !! "s3_path" = Some Sample.path_36
  /\ re_match S3_ARCHIVE_PATTERN Sample.path_36 = Some Sample.groups_36
  /\ Sample.broker_other_cluster !! "cluster_id"
     = Some "ffffffff-cdef-abcd-efab-cdefabcdefab"
  /\ Sample.groups_36 !! "cluster_id" = Some Sample.cluster_36
  /\ UploadFile "/tmp/archive" (Some "archives") "ffffffff-cdef-abcd-efab-cdefabcdefab"
       ∈ trace_of (Sample.engine_of_variable "cluster_id")
           Sample.broker_other_cluster "/tmp/archive".
Proof.
  assert (H1 : Sample.broker_other_cluster !! "s3_path" = Some Sample.path_36)
    by (vm_compute; reflexivity).
  assert (H3 : Sample.broker_other_cluster !! "cluster_id"
               = Some "ffffffff-cdef-abcd-efab-cdefabcdefab")
    by (vm_compute; reflexivity).
  assert (H4 : Sample.groups_36 !! "cluster_id" = Some Sample.cluster_36)
    by (vm_compute; reflexivity).
  split; [exact H1|]. split; [exact path_36_matches|].
  split; [exact H3|]. split; [exact H4|].
  destruct (C1_broker_value_wins (Sample.engine_of_variable "cluster_id") _
              "/tmp/archive" _ _ _ _ _ H1 path_36_matches H3 H4)
    as (_ & _ & U & _).
  apply U; [intros look; reflexivity|reflexivity].
Defined.

(** A key the broker does not hold is answered by the match groups. *)
Lemma components_fall_through (b g : gmap string string) (k : string) :
  b !! k = None -> ChainMap.get [b; g] k = g !! k.
Proof. intros Hb. simpl. rewrite Hb. by destruct (g !! k). Qed.

(** ** C3: a path that does not match *)

(** C3: when the broker's [s3_path] does not match the archive pattern,
    [process] raises the pattern-mismatch error, fires [on_engine_failure]
    exactly once and with that error, calls the uploader zero times and
    leaves the broker as it found it. *)
Theorem C3_mismatch_fails_without_upload self b local_path s3_path :
  b !! "s3_path" = Some s3_path ->
  re_match S3_ARCHIVE_PATTERN s3_path = None ->
  result_of self b local_path = Raise mismatch
  /\ count_fires "on_engine_failure" (trace_of self b local_path) = 1
  /\ Fire "on_engine_failure" b (AException mismatch) ∈ trace_of self b local_path
  /\ count_uploads (trace_of self b local_path) = 0
  /\ broker_after self b local_path = b.
Proof.
  intros Hp Hm. run_paths. rewrite Hp, Hm. cbn [fst snd trace broker].
  repeat split.
  - by count_trace.
  - set_solver.
  - by count_trace.
Qed.

Lemma C3_mismatch_fails_without_upload_witness :
  Sample.broker_invalid !! "s3_path" = Some "not-a-valid-path"
  /\ re_match S3_ARCHIVE_PATTERN "not-a-valid-path" = None
  /\ result_of Sample.engine_ok Sample.broker_invalid "/tmp/archive" = Raise mismatch
  /\ count_fires "on_engine_failure"
       (trace_of Sample.engine_ok Sample.broker_invalid "/tmp/archive") = 1
  /\ count_uploads (trace_of Sample.engine_ok Sample.broker_invalid "/tmp/archive") = 0
  /\ broker_after Sample.engine_ok Sample.broker_invalid "/tmp/archive"
     = Sample.broker_invalid.
Proof.
  assert (H1 : Sample.broker_invalid !! "s3_path" = Some "not-a-valid-path")
    by (vm_compute; reflexivity).
  assert (H2 : re_match S3_ARCHIVE_PATTERN "not-a-valid-path" = None)
    by (vm_compute; reflexivity).
  split; [exact H1|]. split; [exact H2|].
  destruct (C3_mismatch_fails_without_upload Sample.engine_ok _ "/tmp/archive" _ H1 H2)
    as (R & F & _ & U & B).
  repeat split; assumption.
Defined.

(** ** C4: the keys removed on success *)

(** C4: when [process] returns, the broker holds neither [cluster_id] nor
    [s3_path], and no other key it held has been removed. The broker need
    not be what it was without these two: the template call has kept its
    sliced values in it, under keys of the form [name[start:stop]]; a key
    without a bracket, the two removed apart, is bound as it was. *)
Theorem C4_cleanup_on_return self b local_path out st :
  run_process self b local_path = (Ok out, st) ->
  broker st !! "cluster_id" = None
  /\ broker st !! "s3_path" = None
  /\ (forall k, k <> "cluster_id" -> k <> "s3_path" ->
      is_Some (b !! k) -> is_Some (broker st !! k))
  /\ (forall k, k <> "cluster_id" -> k <> "s3_path" ->
      "["%char ∉ chars k -> broker st !! k = b !! k).
Proof.
  rewrite run_process_paths.
  destruct (b !! "s3_path") as [p|]; [|discriminate].
  destruct (re_match S3_ARCHIVE_PATTERN p) as [g|]; [|discriminate]. cbv zeta.
  destruct (uploader self _ _ _); [discriminate|].
  destruct (b !! "cluster_id") as [cid|]; [|discriminate].
  intros [= <- <-]. cbn [broker]. repeat split.
  - rewrite lookup_delete_ne by done. apply lookup_delete_eq.
  - apply lookup_delete_eq.
  - intros k H1 H2 Hk. rewrite !lookup_delete_ne by done.
    by apply after_template_keeps.
  - intros k H1 H2 Hk. rewrite !lookup_delete_ne by done.
    by apply after_template_plain.
Qed.

Lemma run_sample_36 :
  exists out st, run_process Sample.engine_ok Sample.broker_36 "/tmp/archive" = (Ok out, st).
Proof.
  rewrite run_process_paths.
  replace (Sample.broker_36 !! "s3_path") with (Some Sample.path_36)
    by (vm_compute; reflexivity).
  rewrite path_36_matches. cbv zeta.
  change (uploader Sample.engine_ok) with (fun (_ : string) (_ : option string) (_ : string) => @None exn).
  cbv beta.
  replace (Sample.broker_36 !! "cluster_id") with (Some Sample.cluster_36)
    by (vm_compute; reflexivity).
  eauto.
Qed.

Lemma C4_cleanup_on_return_witness :
  exists out st,
    run_process Sample.engine_ok Sample.broker_36 "/tmp/archive" = (Ok out, st)
    /\ broker st !! "cluster_id" = None
    /\ broker st !! "s3_path" = None
    /\ broker st !! "cluster_id[:2]" = Some "ab".
Proof.
  destruct run_sample_36 as (out & st & H).
  exists out, st. split; [exact H|].
  destruct (C4_cleanup_on_return _ _ _ _ _ H) as (H1 & H2 & _).
  split; [assumption|]. split; [assumption|].
  replace st with (snd (run_process Sample.engine_ok Sample.broker_36 "/tmp/archive"))
    by (by rewrite H).
  vm_compute. reflexivity.
Defined.

(** ** C5: the notifications of one invocation *)

(** C5, as stated, fails: when the uploader raises, the invocation fires
    neither [on_engine_success] nor [on_engine_failure]. *)
Lemma C5_upload_error_fires_neither :
  result_of Sample.engine_upload_fails Sample.broker_36 "/tmp/archive"
    = Raise (Raised "upload failed")
  /\ count_fires "pre_extract"
       (trace_of Sample.engine_upload_fails Sample.broker_36 "/tmp/archive") = 1
  /\ count_fires "on_engine_success"
       (trace_of Sample.engine_upload_fails Sample.broker_36 "/tmp/archive") = 0
  /\ count_fires "on_engine_failure"
       (trace_of Sample.engine_upload_fails Sample.broker_36 "/tmp/archive") = 0.
Proof. repeat split; vm_compute; reflexivity. Qed.

(** C5 (amended): every invocation fires [pre_extract] exactly once and
    first, and at most one of [on_engine_success] and [on_engine_failure];
    it fires neither exactly when the broker has no [s3_path] or the
    uploader raises. *)
Theorem C5_notifications self b local_path :
  (exists rest,
     trace_of self b local_path = Fire "pre_extract" b (ALocalPath local_path) :: rest)
  /\ count_fires "pre_extract" (trace_of self b local_path) = 1
  /\ count_fires "on_engine_success" (trace_of self b local_path)
     + count_fires "on_engine_failure" (trace_of self b local_path) <= 1
  /\ (count_fires "on_engine_success" (trace_of self b local_path)
      + count_fires "on_engine_failure" (trace_of self b local_path) = 0
      <-> b !! "s3_path" = None
          \/ exists s3_path groupdict e,
               b !! "s3_path" = Some s3_path
               /\ re_match S3_ARCHIVE_PATTERN s3_path = Some groupdict
               /\ uploader self local_path (dest_bucket self)
                    (compute_target_path self [b; groupdict]) = Some e).
Proof.
  run_paths.
  destruct (b !! "s3_path") as [p|] eqn:Hp.
  2:{ cbn [fst snd trace]. split; [eauto|]. split; [reflexivity|].
      split; [count_trace; lia|]. split; [by left|reflexivity]. }
  destruct (re_match S3_ARCHIVE_PATTERN p) as [g|] eqn:Hm; cbv zeta.
  2:{ cbn [fst snd trace]. split; [unfold prologue; simpl; eauto|].
      count_trace. split; [reflexivity|]. split; [lia|].
      split; [discriminate|].
      intros [H|(p' & g' & e & H1 & H2 & _)]; [discriminate|].
      injection H1 as <-. congruence. }
  destruct (uploader self local_path (dest_bucket self) _) as [e|] eqn:Hu.
  { cbn [fst snd trace]. split; [unfold prologue; simpl; eauto|].
    count_trace. split; [reflexivity|]. split; [lia|].
    split; [|reflexivity]. intros _. right. eauto 10. }
  destruct (b !! "cluster_id"); cbn [fst snd trace];
    (split; [unfold prologue; simpl; eauto|]);
    count_trace; (split; [reflexivity|]); (split; [lia|]);
    (split; [discriminate|]);
    (intros [H|(p' & g' & e & H1 & H2 & H3)]; [discriminate|]);
    injection H1 as <-; rewrite Hm in H2; injection H2 as <-; congruence.
Qed.

(** ** C8: an upload that raises *)

(** C8: when the uploader raises [e], [process] ends with [e] itself, has
    called the uploader once, has fired neither [on_engine_failure] nor
    [on_engine_success] and has not run its cleanup: the broker is as the
    template call left it, with [s3_path] and [cluster_id] as they were and
    every key it held; an invocation fires [on_engine_failure] only on a
    path that does not match. *)
Theorem C8_upload_error_propagates self b local_path s3_path groupdict e :
  b !! "s3_path" = Some s3_path ->
  re_match S3_ARCHIVE_PATTERN s3_path = Some groupdict ->
  uploader self local_path (dest_bucket self)
    (compute_target_path self [b; groupdict]) = Some e ->
  (result_of self b local_path = Raise e
   /\ count_uploads (trace_of self b local_path) = 1
   /\ count_fires "on_engine_failure" (trace_of self b local_path) = 0
   /\ count_fires "on_engine_success" (trace_of self b local_path) = 0
   /\ broker_after self b local_path = after_template self b groupdict
   /\ broker_after self b local_path !! "s3_path" = Some s3_path
   /\ broker_after self b local_path !! "cluster_id" = b !! "cluster_id"
   /\ (forall k, is_Some (b !! k) ->
       is_Some (broker_after self b local_path !! k)))
  /\ (forall b' local_path',
        0 < count_fires "on_engine_failure" (trace_of self b' local_path') ->
        exists p, b' !! "s3_path" = Some p
                  /\ re_match S3_ARCHIVE_PATTERN p = None).
Proof.
  intros Hp Hm Hu. split.
  - run_paths. rewrite Hp, Hm. cbv zeta. rewrite Hu. cbn [fst snd trace broker].
    count_trace. repeat split.
    + rewrite <- Hp. apply after_template_plain. plain_key.
    + apply after_template_plain. plain_key.
    + apply after_template_keeps.
  - intros b' lp'. run_paths.
    destruct (b' !! "s3_path") as [p|] eqn:Hp'.
    2:{ cbn [fst snd trace]. count_trace. lia. }
    destruct (re_match S3_ARCHIVE_PATTERN p) as [g|] eqn:Hm'; [|eauto]. cbv zeta.
    destruct (uploader self lp' (dest_bucket self) _) as [e'|].
    { cbn [fst snd trace]. count_trace. lia. }
    destruct (b' !! "cluster_id"); cbn [fst snd trace]; count_trace; lia.
Qed.

Lemma C8_upload_error_propagates_witness :
  Sample.broker_36 !! "s3_path" = Some Sample.path_36
  /\ re_match S3_ARCHIVE_PATTERN Sample.path_36 = Some Sample.groups_36
  /\ uploader Sample.engine_upload_fails "/tmp/archive"
       (dest_bucket Sample.engine_upload_fails)
       (compute_target_path Sample.engine_upload_fails
          [Sample.broker_36; Sample.groups_36]) = Some (Raised "upload failed")
  /\ result_of Sample.engine_upload_fails Sample.broker_36 "/tmp/archive"
     = Raise (Raised "upload failed")
  /\ count_uploads (trace_of Sample.engine_upload_fails Sample.broker_36 "/tmp/archive") = 1
  /\ count_fires "on_engine_failure"
       (trace_of Sample.engine_upload_fails Sample.broker_36 "/tmp/archive") = 0
  /\ broker_after Sample.engine_upload_fails Sample.broker_36 "/tmp/archive"
     = <["cluster_id[:2]" := "ab"]> Sample.broker_36.
Proof.
  assert (H1 : Sample.broker_36 !! "s3_path" = Some Sample.path_36)
    by (vm_compute; reflexivity).
  assert (H3 : uploader Sample.engine_upload_fails "/tmp/archive"
                 (dest_bucket Sample.engine_upload_fails)
                 (compute_target_path Sample.engine_upload_fails
                    [Sample.broker_36; Sample.groups_36]) = Some (Raised "upload failed"))
    by reflexivity.
  split; [exact H1|]. split; [exact path_36_matches|]. split; [exact H3|].
  destruct (C8_upload_error_propagates _ _ _ _ _ _ H1 path_36_matches H3)
    as ((R & U & F & _ & B & _) & _).
  split; [exact R|]. split; [exact U|]. split; [exact F|].
  rewrite B. compute_done.
Defined.

(** ** C10: a broker without [cluster_id] *)

(** C10: when the broker lacks [cluster_id] while the match and the upload
    succeed, [process] raises [KeyError] for [cluster_id] at the cleanup,
    after one upload and one [on_engine_success]; the cleanup has removed
    nothing: the broker is as the template call left it and still holds
    [s3_path]. *)
Theorem C10_cleanup_needs_cluster_id self b local_path s3_path groupdict :
  b !! "cluster_id" = None ->
  b !! "s3_path" = Some s3_path ->
  re_match S3_ARCHIVE_PATTERN s3_path = Some groupdict ->
  uploader self local_path (dest_bucket self)
    (compute_target_path self [b; groupdict]) = None ->
  let target_path := compute_target_path self [b; groupdict] in
  let b' := after_template self b groupdict in
  result_of self b local_path = Raise (KeyError "cluster_id")
  /\ trace_of self b local_path
     = prologue self b local_path
       ++ [UploadFile local_path (dest_bucket self) target_path;
           Fire "on_engine_success" b'
             (AReport (report_of target_path s3_path [b'; groupdict]))]
  /\ count_uploads (trace_of self b local_path) = 1
  /\ count_fires "on_engine_success" (trace_of self b local_path) = 1
  /\ broker_after self b local_path = b'
  /\ b' !! "s3_path" = Some s3_path
  /\ b' !! "cluster_id" = None
  /\ (forall k, is_Some (b !! k) -> is_Some (b' !! k)).
Proof.
  intros Hc Hp Hm Hu. cbv zeta. run_paths.
  rewrite Hp, Hm. cbv zeta. rewrite Hu, Hc. cbn [fst snd trace broker].
  split; [done|]. split; [done|]. split; [by count_trace|].
  split; [by count_trace|]. split; [done|]. repeat split.
  - rewrite <- Hp. apply after_template_plain. plain_key.
  - rewrite <- Hc. apply after_template_plain. plain_key.
  - intros k. apply after_template_keeps.
Qed.

Lemma C10_cleanup_needs_cluster_id_witness :
  Sample.broker_path_only !! "cluster_id" = None
  /\ Sample.broker_path_only !! "s3_path" = Some Sample.path_36
  /\ re_match S3_ARCHIVE_PATTERN Sample.path_36 = Some Sample.groups_36
  /\ result_of Sample.engine_ok Sample.broker_path_only "/tmp/archive"
     = Raise (KeyError "cluster_id")
  /\ count_uploads (trace_of Sample.engine_ok Sample.broker_path_only "/tmp/archive") = 1
  /\ count_fires "on_engine_success"
       (trace_of Sample.engine_ok Sample.broker_path_only "/tmp/archive") = 1
  /\ broker_after Sample.engine_ok Sample.broker_path_only "/tmp/archive"
     = after_template Sample.engine_ok Sample.broker_path_only Sample.groups_36
  /\ after_template Sample.engine_ok Sample.broker_path_only Sample.groups_36
     = <["cluster_id[:2]" := "ab"]> Sample.broker_path_only.
Proof.
  assert (H1 : Sample.broker_path_only !! "cluster_id" = None)
    by (vm_compute; reflexivity).
  assert (H2 : Sample.broker_path_only !! "s3_path" = Some Sample.path_36)
    by (vm_compute; reflexivity).
  split; [exact H1|]. split; [exact H2|]. split; [exact path_36_matches|].
  destruct (C10_cleanup_needs_cluster_id Sample.engine_ok _ "/tmp/archive" _ _
              H1 H2 path_36_matches eq_refl) as (R & _ & U & F & B & _).
  split; [exact R|]. split; [exact U|]. split; [exact F|]. split; [exact B|].
  compute_done.
Defined.

(** ** The template resolver *)

Module TemplateFacts.

Import SlicedTemplate.

Lemma substitute_from_skip m n c s :
  substitute_from m (S n) (c :: s) = substitute_from m n s.
Proof. reflexivity. Qed.

Lemma substitute_from_text m c s :
  Ascii.eqb c "$" = false ->
  substitute_from m 0 (c :: s) = c :: substitute_from m 0 s.
Proof. intros H. simpl. by rewrite H. Qed.

Lemma substitute_from_found m s name sl n v :
  placeholder s = Some (name, sl, n) ->
  m name = Some v ->
  substitute_from m 0 ("$"%char :: s) = sliced sl v ++ substitute_from m n s.
Proof.
  intros Hp Hm. cbn [substitute_from Ascii.eqb Bool.eqb]. by rewrite Hp, Hm.
Qed.

Lemma substitute_from_missing m s name sl n :
  placeholder s = Some (name, sl, n) ->
  m name = None ->
  substitute_from m 0 ("$"%char :: s)
  = "$"%char :: take n s ++ substitute_from m n s.
Proof.
  intros Hp Hm. cbn [substitute_from Ascii.eqb Bool.eqb]. by rewrite Hp, Hm.
Qed.

Ltac substitute_step :=
  first
    [ rewrite substitute_from_skip
    | rewrite substitute_from_text by reflexivity
    | erewrite substitute_from_found; [ | vm_compute; reflexivity | eassumption ] ].

(** The default template on a variable source that holds its five
    variables. *)
Lemma default_pattern_render (m : string -> option string) cid y mo d t :
  m "cluster_id" = Some cid -> m "year" = Some y -> m "month" = Some mo ->
  m "day" = Some d -> m "time" = Some t ->
  safe_substitute default_archive_name_pattern m
  = str (apply_slice (None, Some 2%Z) (chars cid) ++ chars "/" ++ chars cid
         ++ chars "/" ++ chars y ++ chars mo ++ chars "/" ++ chars d
         ++ chars "/" ++ chars t ++ chars ".tar.gz").
Proof.
  intros Hc Hy Hm Hd Ht.
  unfold safe_substitute, default_archive_name_pattern.
  cbn [list_ascii_of_string].
  repeat substitute_step.
  cbn [substitute_from sliced]. rewrite <- ?app_assoc. reflexivity.
Qed.

(** The one-pass substitution is the token-wise resolution. *)
Lemma substitute_from_tokens m s : forall n,
  substitute_from m n s = concat (map (resolve m) (tokens_from n s)).
Proof.
  induction s as [|c s IH]; intros n; [done|].
  destruct n as [|n]; cbn [substitute_from tokens_from]; [|apply IH].
  destruct (Ascii.eqb c "$").
  - destruct (placeholder s) as [[[name sl] k]|].
    + cbn [map concat resolve]. rewrite <- IH.
      destruct (m name); [done|]. by rewrite <- app_comm_cons.
    + cbn [map concat resolve]. by rewrite <- IH.
  - cbn [map concat resolve]. by rewrite <- IH.
Qed.

(** The tokens, as written, are the template. *)
Lemma tokens_from_raw s : forall n,
  concat (map raw_text (tokens_from n s)) = drop n s.
Proof.
  induction s as [|c s IH]; intros n; [by destruct n|].
  destruct n as [|n]; cbn [tokens_from]; [|apply IH].
  destruct (Ascii.eqb c "$").
  - destruct (placeholder s) as [[[name sl] k]|].
    + cbn [map concat raw_text]. rewrite IH.
      rewrite <- app_comm_cons. by rewrite take_drop.
    + cbn [map concat raw_text]. rewrite IH. done.
  - cbn [map concat raw_text]. rewrite IH. done.
Qed.

End TemplateFacts.

(** ** The template resolver and its contract *)

Module SliceFacts.

Import SlicedTemplate.

(** *** Scanning *)

Lemma substitute_from_drop m s : forall n,
  substitute_from m n s = substitute_from m 0 (drop n s).
Proof.
  induction s as [|c s IH]; intros n; [by destruct n|].
  destruct n as [|n]; [done|]. cbn [substitute_from drop]. apply IH.
Qed.

Lemma substitute_from_literal m text s :
  "$"%char ∉ text ->
  substitute_from m 0 (text ++ s) = text ++ substitute_from m 0 s.
Proof.
  induction text as [|c text IH]; intros Ht; [done|].
  cbn [app]. rewrite TemplateFacts.substitute_from_text.
  - rewrite IH; [done|]. intros Hin. apply Ht. by constructor.
  - apply Ascii.eqb_neq. intros ->. apply Ht. constructor.
Qed.

Lemma run_app (p : ascii -> bool) w rest :
  Forall (fun c => p c = true) w ->
  match rest with [] => True | c :: _ => p c = false end ->
  run p (w ++ rest) = length w.
Proof.
  intros Hw Hr. induction Hw as [|c w Hc _ IH]; cbn [app run length].
  - destruct rest as [|c rest]; [done|]. cbn [run]. by rewrite Hr.
  - cbv beta in Hc. by rewrite Hc, IH.
Qed.

Lemma ident_app name rest :
  is_identifier name ->
  match rest with [] => True | c :: _ => is_id_char c = false end ->
  ident (name ++ rest) = length name.
Proof.
  destruct name as [|c name]; [done|]. intros [Hc Hn] Hr.
  cbn [app ident length]. rewrite Hc. f_equal. by apply run_app.
Qed.

(** *** Numerals *)

Lemma digits_of_uint d :
  Forall (fun c => is_digit c = true) (chars (NilEmpty.string_of_uint d)).
Proof. induction d; cbn; constructor; done. Qed.

Lemma number_of_uint d : forall acc : nat,
  fold_left (fun acc c => (10 * acc + Z.of_nat (nat_of_ascii c - 48))%Z)
    (chars (NilEmpty.string_of_uint d)) (Z.of_nat acc)
  = Z.of_nat (Nat.of_uint_acc d acc).
Proof.
  induction d as [|d IH|d IH|d IH|d IH|d IH|d IH|d IH|d IH|d IH|d IH];
    intros acc; [done|..];
    cbn [NilEmpty.string_of_uint list_ascii_of_string fold_left Nat.of_uint_acc];
    rewrite <- IH; f_equal; rewrite Nat.tail_mul_spec.
  all: match goal with
       | |- context [Z.of_nat (nat_of_ascii ?c - 48)] =>
           let v := eval vm_compute in (nat_of_ascii c - 48) in
           change (nat_of_ascii c - 48) with v
       end; lia.
Qed.

Lemma length_chars s : length (chars s) = String.length s.
Proof. induction s as [|c s IH]; [done|]. cbn. by rewrite IH. Qed.

Lemma bound_written w rest :
  well_written w ->
  match rest with
  | [] => True
  | c :: _ => is_digit c = false /\ c <> "-"%char
  end ->
  bound (bound_text w ++ rest) = (bound_value w, length (bound_text w)).
Proof.
  intros Hw Hr.
  assert (Hrun : forall d,
            run is_digit (chars (NilEmpty.string_of_uint d) ++ rest)
            = length (chars (NilEmpty.string_of_uint d))).
  { intros d. apply run_app; [apply digits_of_uint|].
    destruct rest as [|c rest]; [done|]. apply Hr. }
  assert (Hnum : forall d, number (chars (NilEmpty.string_of_uint d))
                           = Z.of_nat (Nat.of_uint d)).
  { intros d. apply (number_of_uint d 0). }
  destruct w as [|d|d]; cbn [bound_text bound_value app].
  - destruct rest as [|c rest]; [done|]. destruct Hr as [Hd Hm].
    unfold bound. cbn [run]. rewrite Hd.
    destruct (Ascii.eqb_spec c "-"); [done|].
    destruct c as [[] [] [] [] [] [] [] []]; try done.
  - unfold bound. rewrite Hrun, take_app_length, Hnum.
    destruct d; try done; cbn [NilEmpty.string_of_uint list_ascii_of_string app length Nat.eqb];
      done.
  - unfold bound. rewrite Hrun, take_app_length, Hnum.
    destruct d; try done.
Qed.


(** *** Slices *)

Lemma slice_suffix_written start stop post :
  well_written start -> well_written stop ->
  slice_suffix (slice_written start stop ++ post)
  = Some ((bound_value start, bound_value stop), length (slice_written start stop)).
Proof.
  intros Ha Hb. unfold slice_written. cbn [app slice_suffix].
  rewrite <- app_assoc. cbn [app].
  rewrite (bound_written start) by (done || (split; done)).
  rewrite drop_app_length.
  rewrite <- app_assoc. cbn [app].
  rewrite (bound_written stop) by (done || (split; done)).
  rewrite drop_app_length. do 2 f_equal.
  repeat first [rewrite length_app | progress cbn [length]]. lia.
Qed.

Lemma position_clamp len (i : Z) :
  Nat.min (position len i) len = Z.to_nat (clamp (Z.of_nat len) i).
Proof.
  unfold position, clamp. destruct (Z.ltb_spec i 0); lia.
Qed.

Lemma take_drop_min (v : list ascii) a b :
  take (b - a) (drop a v)
  = take (Nat.min b (length v) - Nat.min a (length v))
      (drop (Nat.min a (length v)) v).
Proof.
  destruct (Nat.le_gt_cases (length v) a) as [Ha|Ha].
  - rewrite (Nat.min_r a) by done. rewrite !drop_ge by lia. by rewrite !take_nil.
  - rewrite (Nat.min_l a) by lia.
    destruct (Nat.le_gt_cases (length v) b) as [Hb|Hb].
    + rewrite (Nat.min_r b) by done.
      rewrite !take_ge; [done|rewrite length_drop; lia..].
    + by rewrite (Nat.min_l b) by lia.
Qed.

Lemma clamp_nonneg len i : (0 <= len)%Z -> (0 <= clamp len i)%Z.
Proof. intros H. unfold clamp. destruct (Z.ltb_spec i 0); lia. Qed.

Lemma clamp_start (len : nat) : Z.to_nat (clamp (Z.of_nat len) 0) = Nat.min 0 len.
Proof. unfold clamp. destruct (Z.ltb_spec 0 0); lia. Qed.

Lemma clamp_stop (len : nat) :
  Z.to_nat (clamp (Z.of_nat len) (Z.of_nat len)) = Nat.min len len.
Proof. unfold clamp. destruct (Z.ltb_spec (Z.of_nat len) 0); lia. Qed.

(** The slice the resolver takes is the slice of the contract. *)
Lemma apply_slice_python start stop v :
  apply_slice (start, stop) v = python_slice start stop v.
Proof.
  unfold apply_slice, python_slice. cbn [fst snd].
  rewrite (take_drop_min v).
  assert (Ha : Z.to_nat (clamp (Z.of_nat (length v)) (default 0%Z start))
               = Nat.min (match start with
                          | Some i => position (length v) i
                          | None => 0
                          end) (length v)).
  { destruct start as [i|]; cbn [default];
      [by rewrite position_clamp|apply clamp_start]. }
  assert (Hb : Z.to_nat (clamp (Z.of_nat (length v))
                           (default (Z.of_nat (length v)) stop))
               = Nat.min (match stop with
                          | Some i => position (length v) i
                          | None => length v
                          end) (length v)).
  { destruct stop as [i|]; cbn [default];
      [by rewrite position_clamp|apply clamp_stop]. }
  rewrite Z2Nat.inj_sub by (apply clamp_nonneg; lia).
  by rewrite Ha, Hb.
Qed.

(** *** Reading back what the scanner took *)

Lemma run_spec p s :
  Forall (fun c => p c = true) (take (run p s) s)
  /\ match drop (run p s) s with c :: _ => p c = false | [] => True end.
Proof.
  induction s as [|c s [IH1 IH2]]; [done|]. cbn [run].
  destruct (p c) eqn:Hc; cbn [take drop firstn skipn]; [|done].
  split; [by constructor|done].
Qed.

Lemma run_length p s : length (take (run p s) s) = run p s.
Proof.
  induction s as [|c s IH]; [done|]. cbn [run].
  destruct (p c); cbn [take firstn length]; [by rewrite IH|done].
Qed.

Lemma ident_spec s :
  ident s <> 0 ->
  is_identifier (take (ident s) s)
  /\ length (take (ident s) s) = ident s
  /\ ~ continues_name (drop (ident s) s).
Proof.
  destruct s as [|c s]; [done|]. cbn [ident].
  destruct (is_id_start c) eqn:Hc; [|done]. intros _.
  destruct (run_spec is_id_char s) as [H1 H2].
  cbn [take drop firstn skipn is_identifier length].
  rewrite run_length. split; [done|]. split; [done|].
  unfold continues_name. destruct (drop _ s); [tauto|]. by rewrite H2.
Qed.

Lemma uint_of_digits ds :
  Forall (fun c => is_digit c = true) ds ->
  exists d, chars (NilEmpty.string_of_uint d) = ds
            /\ (ds <> [] -> d <> Decimal.Nil).
Proof.
  induction 1 as [|c ds Hc _ [d [Hd _]]]; [by exists Decimal.Nil|].
  exists (if Ascii.eqb c "0" then Decimal.D0 d
          else if Ascii.eqb c "1" then Decimal.D1 d
          else if Ascii.eqb c "2" then Decimal.D2 d
          else if Ascii.eqb c "3" then Decimal.D3 d
          else if Ascii.eqb c "4" then Decimal.D4 d
          else if Ascii.eqb c "5" then Decimal.D5 d
          else if Ascii.eqb c "6" then Decimal.D6 d
          else if Ascii.eqb c "7" then Decimal.D7 d
          else if Ascii.eqb c "8" then Decimal.D8 d
          else Decimal.D9 d).
  cbv beta in Hc.
  destruct c as [[] [] [] [] [] [] [] []]; try discriminate Hc;
    (split; [cbn; by rewrite Hd|done]).
Qed.

Lemma number_digits d :
  number (chars (NilEmpty.string_of_uint d)) = Z.of_nat (Nat.of_uint d).
Proof. apply (number_of_uint d 0). Qed.

Lemma bound_no_sign c s :
  c <> "-"%char ->
  bound (c :: s)
  = let n := run is_digit (c :: s) in
    if Nat.eqb n 0 then (None, 0) else (Some (number (take n (c :: s))), n).
Proof.
  intros Hc. destruct c as [[] [] [] [] [] [] [] []]; first [reflexivity|done].
Qed.

(** Whatever [bound] takes is a bound as the contract writes it. *)
Lemma bound_spec s :
  exists w, well_written w
    /\ bound s = (bound_value w, length (bound_text w))
    /\ s = bound_text w ++ drop (length (bound_text w)) s.
Proof.
  assert (Hdigits : forall s, run is_digit s <> 0 ->
            exists d, d <> Decimal.Nil
              /\ chars (NilEmpty.string_of_uint d) = take (run is_digit s) s
              /\ length (chars (NilEmpty.string_of_uint d)) = run is_digit s).
  { intros t Hn. destruct (run_spec is_digit t) as [H1 _].
    destruct (uint_of_digits _ H1) as [d [Hd Hnil]].
    exists d. split; [|split; [done|by rewrite Hd, run_length]].
    apply Hnil. intros Hnil'. apply Hn.
    by rewrite <- run_length, Hnil'. }
  destruct s as [|c s]; [by exists Omitted|].
  destruct (Ascii.eqb_spec c "-") as [->|Hc].
  - cbn [bound]. destruct (Nat.eqb_spec (run is_digit s) 0) as [Hn|Hn].
    + by exists Omitted.
    + destruct (Hdigits s Hn) as [d [Hnil [Hd Hlen]]].
      exists (FromEnd d). split; [done|].
      cbn [bound_text bound_value length app]. rewrite Hlen.
      split; [by rewrite <- Hd, number_digits|].
      cbn [drop skipn]. by rewrite Hd, take_drop.
  - rewrite (bound_no_sign c s Hc). cbv zeta.
    destruct (Nat.eqb_spec (run is_digit (c :: s)) 0) as [Hn|Hn].
    + by exists Omitted.
    + destruct (Hdigits (c :: s) Hn) as [d [Hnil [Hd Hlen]]].
      exists (FromStart d). split; [done|].
      cbn [bound_text bound_value]. rewrite Hlen.
      split; [by rewrite <- Hd, number_digits|].
      by rewrite Hd, take_drop.
Qed.

(** Whatever [slice_suffix] takes is a slice suffix as the contract writes
    it. *)
Lemma slice_suffix_spec s sl k :
  slice_suffix s = Some (sl, k) ->
  exists start stop,
    well_written start /\ well_written stop
    /\ sl = (bound_value start, bound_value stop)
    /\ k = length (slice_written start stop)
    /\ s = slice_written start stop ++ drop k s.
Proof.
  destruct s as [|c s1]; [done|].
  destruct (Ascii.eqb_spec c "[") as [->|Hc];
    [|destruct c as [[] [] [] [] [] [] [] []]; done].
  cbn [slice_suffix].
  destruct (bound_spec s1) as [wa [Hwa [Ha Hs1]]]. rewrite Ha.
  destruct (drop (length (bound_text wa)) s1) as [|c2 s2] eqn:Hd1; [done|].
  destruct (Ascii.eqb_spec c2 ":") as [->|Hc2];
    [|destruct c2 as [[] [] [] [] [] [] [] []]; done].
  destruct (bound_spec s2) as [wb [Hwb [Hb Hs2]]]. rewrite Hb.
  destruct (drop (length (bound_text wb)) s2) as [|c3 s3] eqn:Hd2; [done|].
  destruct (Ascii.eqb_spec c3 "]") as [->|Hc3];
    [|destruct c3 as [[] [] [] [] [] [] [] []]; done].
  intros [= <- <-]. exists wa, wb. split; [done|]. split; [done|].
  split; [done|].
  assert (Hlen : length (slice_written wa wb)
                 = length (bound_text wa) + length (bound_text wb) + 3).
  { unfold slice_written.
    repeat first [rewrite length_app | progress cbn [length]]. lia. }
  split; [done|].
  assert (Hs : "["%char :: s1 = slice_written wa wb ++ s3).
  { unfold slice_written. rewrite Hs1, Hs2.
    cbn [app]. rewrite <- !app_assoc. cbn [app]. by rewrite <- !app_assoc. }
  rewrite Hs at 1. f_equal.
  rewrite <- Hlen, Hs. by rewrite drop_app_length.
Qed.

Lemma slice_suffix_begins s : is_Some (slice_suffix s) <-> begins_slice s.
Proof.
  split.
  - intros [[sl k] H]. destruct (slice_suffix_spec _ _ _ H) as (a & b & Ha & Hb & _ & _ & Hs).
    by exists a, b, (drop k s).
  - intros (a & b & post & Ha & Hb & ->). by rewrite slice_suffix_written.
Qed.

Lemma slice_suffix_no s : ~ begins_slice s -> slice_suffix s = None.
Proof.
  intros H. destruct (slice_suffix s) eqn:Hs; [|done].
  destruct H. apply slice_suffix_begins. by rewrite Hs.
Qed.

(** *** Placeholders *)

Lemma placeholder_bare s :
  match s with "{"%char :: _ => False | _ => True end ->
  placeholder s
  = let n := ident s in
    if Nat.eqb n 0 then None
    else match slice_suffix (drop n s) with
         | Some (sl, k) => Some (str (take n s), Some sl, n + k)
         | None => Some (str (take n s), None, n)
         end.
Proof.
  destruct s as [|c s]; [done|]. intros Hc.
  destruct c as [[] [] [] [] [] [] [] []]; first [reflexivity|done].
Qed.

Lemma identifier_bare name rest :
  is_identifier name ->
  match name ++ rest with "{"%char :: _ => False | _ => True end.
Proof.
  destruct name as [|c name]; [done|]. intros [Hc _]. cbn [app].
  destruct c as [[] [] [] [] [] [] [] []]; done.
Qed.

Lemma not_continues rest :
  ~ continues_name rest ->
  match rest with [] => True | c :: _ => is_id_char c = false end.
Proof.
  destruct rest as [|c rest]; [done|]. cbn [continues_name].
  by destruct (is_id_char c).
Qed.

Lemma identifier_length name : is_identifier name -> Nat.eqb (length name) 0 = false.
Proof. by destruct name. Qed.

(** [$name], with or without a slice suffix. *)
Lemma placeholder_name name rest :
  is_identifier name -> ~ continues_name rest ->
  placeholder (name ++ rest)
  = match slice_suffix rest with
    | Some (sl, k) => Some (str name, Some sl, length name + k)
    | None => Some (str name, None, length name)
    end.
Proof.
  intros Hn Hr. rewrite placeholder_bare by by apply identifier_bare.
  cbv zeta. rewrite (ident_app name rest Hn (not_continues _ Hr)).
  by rewrite identifier_length, drop_app_length, take_app_length.
Qed.

(** [${name}], with or without a slice suffix. *)
Lemma placeholder_braced name rest :
  is_identifier name ->
  placeholder ("{"%char :: name ++ "}"%char :: rest)
  = match slice_suffix rest with
    | Some (sl, k) => Some (str name, Some sl, length name + 2 + k)
    | None => Some (str name, None, length name + 2)
    end.
Proof.
  intros Hn. cbn [placeholder].
  rewrite (ident_app name ("}"%char :: rest) Hn) by done.
  by rewrite identifier_length, drop_app_length, take_app_length.
Qed.

Lemma slice_opens_no_name start stop rest :
  ~ continues_name (slice_written start stop ++ rest).
Proof. cbn. done. Qed.

(** What [placeholder] takes is a placeholder as the contract writes it,
    and takes as much as one can. *)
Lemma placeholder_spec s name sl n :
  placeholder s = Some (name, sl, n) ->
  exists braced nm wsl,
    let p := Var braced nm wsl in
    piece_ok p
    /\ may_follow p (drop n s)
    /\ "$"%char :: s = written p ++ drop n s
    /\ S n = length (written p)
    /\ name = str nm
    /\ sl = match wsl with
            | Some (start, stop) => Some (bound_value start, bound_value stop)
            | None => None
            end.
Proof.
  assert (Hsl : forall (braced : bool) (nm body rest : list ascii) sl' n',
    is_identifier nm ->
    body = (if braced then "{"%char :: nm ++ ["}"%char] else nm) ->
    (braced = false -> ~ continues_name rest) ->
    match slice_suffix rest with
    | Some (sl, k) => Some (str nm, Some sl, length body + k)
    | None => Some (str nm, None, length body)
    end = Some (name, sl', n') ->
    s = body ++ rest ->
    exists wsl,
      piece_ok (Var braced nm wsl)
      /\ may_follow (Var braced nm wsl) (drop n' s)
      /\ "$"%char :: s = written (Var braced nm wsl) ++ drop n' s
      /\ S n' = length (written (Var braced nm wsl))
      /\ name = str nm
      /\ sl' = match wsl with
               | Some (start, stop) => Some (bound_value start, bound_value stop)
               | None => None
               end).
  { intros braced nm body rest sl' n' Hnm Hbody Hcont Hres ->.
    destruct (slice_suffix rest) as [[sl0 k]|] eqn:Hs.
    - injection Hres as <- <- <-.
      destruct (slice_suffix_spec _ _ _ Hs) as (a & b & Ha & Hb & -> & -> & Hrest).
      exists (Some (a, b)). cbn [piece_ok may_follow written].
      rewrite <- Hbody, drop_app_add.
      repeat split; try done.
      + cbn [app]. f_equal. rewrite <- app_assoc. f_equal. exact Hrest.
      + cbn [length]. by rewrite !length_app.
    - injection Hres as <- <- <-.
      exists None. cbn [piece_ok may_follow written].
      rewrite <- Hbody, drop_app_length, app_nil_r.
      repeat split; try done.
      intros Hb. apply slice_suffix_begins in Hb. rewrite Hs in Hb.
      by destruct Hb. }
  destruct s as [|c s1]; [done|].
  destruct (Ascii.eqb_spec c "{") as [->|Hc].
  - cbn [placeholder].
    destruct (Nat.eqb_spec (ident s1) 0) as [|Hn]; [done|].
    destruct (ident_spec s1 Hn) as (Hid & Hlen & Hcont).
    destruct (drop (ident s1) s1) as [|c2 s2] eqn:Hd; [done|].
    destruct (Ascii.eqb_spec c2 "}") as [->|Hc2];
      [|destruct c2 as [[] [] [] [] [] [] [] []]; done].
    intros Hres. exists true, (take (ident s1) s1).
    apply (Hsl true _ ("{"%char :: take (ident s1) s1 ++ ["}"%char]) s2);
      try done.
    + cbn [length]. rewrite length_app, Hlen. cbn [length].
      replace (S (ident s1 + 1)) with (ident s1 + 2) by lia.
      destruct (slice_suffix s2) as [[? ?]|]; [|done].
      by rewrite <- Nat.add_assoc in Hres |- *.
    + cbn [app]. f_equal. rewrite <- app_assoc. cbn [app].
      by rewrite <- Hd, take_drop.
  - rewrite placeholder_bare
      by (destruct c as [[] [] [] [] [] [] [] []]; done).
    cbv zeta.
    destruct (Nat.eqb_spec (ident (c :: s1)) 0) as [|Hn]; [done|].
    destruct (ident_spec (c :: s1) Hn) as (Hid & Hlen & Hcont).
    intros Hres. exists false, (take (ident (c :: s1)) (c :: s1)).
    apply (Hsl false _ (take (ident (c :: s1)) (c :: s1))
             (drop (ident (c :: s1)) (c :: s1))); try done.
    + by rewrite Hlen.
    + by rewrite take_drop.
Qed.

Lemma placeholder_begins s : is_Some (placeholder s) <-> begins_placeholder s.
Proof.
  split.
  - intros [[[name sl] n] H].
    destruct (placeholder_spec _ _ _ _ H)
      as (braced & nm & wsl & [Hnm _] & _ & Hs & _).
    cbn [written app] in Hs. injection Hs as Hs.
    exists nm, (match wsl with
                | Some (start, stop) => slice_written start stop
                | None => []
                end ++ drop n s).
    split; [done|]. destruct braced.
    + right. rewrite Hs at 1.
      cbn [app]. f_equal. rewrite <- !app_assoc. cbn [app]. reflexivity.
    + left. rewrite Hs at 1. rewrite <- app_assoc. reflexivity.
  - intros (name & post & Hn & [->| ->]).
    + destruct name as [|c name]; [done|]. destruct Hn as [Hc Hn].
      rewrite placeholder_bare
        by (apply (identifier_bare (c :: name)); by split).
      cbv zeta. cbn [app ident]. rewrite Hc. cbn [Nat.eqb].
      by destruct (slice_suffix _) as [[? ?]|].
    + rewrite placeholder_braced by done.
      by destruct (slice_suffix _) as [[? ?]|].
Qed.

Lemma placeholder_no s : ~ begins_placeholder s -> placeholder s = None.
Proof.
  intros H. destruct (placeholder s) eqn:Hs; [|done].
  destruct H. apply placeholder_begins. by rewrite Hs.
Qed.

(** *** The resolver and the contract *)

Lemma substitute_from_stray m s :
  placeholder s = None ->
  substitute_from m 0 ("$"%char :: s) = "$"%char :: substitute_from m 0 s.
Proof. intros H. cbn [substitute_from Ascii.eqb Bool.eqb]. by rewrite H. Qed.

Lemma placeholder_written braced name wsl rest :
  piece_ok (Var braced name wsl) ->
  may_follow (Var braced name wsl) rest ->
  exists body,
    written (Var braced name wsl) = "$"%char :: body
    /\ placeholder (body ++ rest)
       = Some (str name,
               match wsl with
               | Some (start, stop) => Some (bound_value start, bound_value stop)
               | None => None
               end,
               length body).
Proof.
  intros [Hn Hw] Hf. eexists. split; [reflexivity|].
  destruct braced.
  - cbn [app]. rewrite <- !app_assoc. cbn [app].
    rewrite placeholder_braced by done.
    destruct wsl as [[a b]|].
    + destruct Hw as [Ha Hb]. rewrite slice_suffix_written by done.
      do 2 f_equal. cbn [length]. rewrite !length_app. cbn [length]. lia.
    + destruct Hf as [_ Hf]. cbn [app]. rewrite slice_suffix_no by done.
      do 2 f_equal. cbn [length]. rewrite !length_app. cbn [length]. lia.
  - rewrite <- app_assoc.
    destruct wsl as [[a b]|].
    + destruct Hw as [Ha Hb].
      rewrite placeholder_name by (done || apply slice_opens_no_name).
      rewrite slice_suffix_written by done.
      by rewrite length_app.
    + destruct Hf as [Hc Hf]. cbn [app].
      rewrite placeholder_name by (done || by apply Hc).
      rewrite slice_suffix_no by done. by rewrite app_nil_r.
Qed.

(** On the pieces of a template the resolver does what the contract says. *)
Lemma substitute_rendered m ps :
  well_formed ps ->
  substitute_from m 0 (written_all ps) = rendered_all m ps.
Proof.
  induction ps as [|p ps IH]; [done|]. intros (Hp & Hf & Hps).
  unfold written_all, rendered_all in *. cbn [map concat].
  specialize (IH Hps).
  destruct p as [text| |braced name wsl].
  - cbn [written rendered]. by rewrite substitute_from_literal, IH.
  - cbn [written rendered app].
    by rewrite substitute_from_stray, IH by by apply placeholder_no.
  - destruct (placeholder_written _ _ _ _ Hp Hf) as (body & Hbody & Hpl).
    cbn [rendered]. rewrite Hbody. cbn [app].
    destruct (m (str name)) as [v|] eqn:Hm.
    + rewrite (TemplateFacts.substitute_from_found _ _ _ _ _ _ Hpl Hm).
      rewrite substitute_from_drop, drop_app_length, IH. f_equal.
      destruct wsl as [[a b]|]; [|done]. apply apply_slice_python.
    + rewrite (TemplateFacts.substitute_from_missing _ _ _ _ _ Hpl Hm).
      by rewrite substitute_from_drop, drop_app_length, take_app_length, IH.
Qed.

(** Every template is made of pieces. *)
Lemma pieces_exist s : exists ps, well_formed ps /\ written_all ps = s.
Proof.
  remember (length s) as k eqn:Hk. revert s Hk.
  induction k as [k IH] using lt_wf_ind. intros s ->.
  destruct s as [|c s]; [by exists []|].
  destruct (Ascii.eqb_spec c "$") as [->|Hc].
  - destruct (placeholder s) as [[[name sl] n]|] eqn:Hpl.
    + destruct (placeholder_spec _ _ _ _ Hpl)
        as (braced & nm & wsl & Hok & Hf & Hs & Hlen & _).
      destruct (IH (length (drop n s))) with (s := drop n s)
        as (ps & Hps & Hw); [|done|].
      { rewrite length_drop. cbn [length]. lia. }
      exists (Var braced nm wsl :: ps). cbn [well_formed]. rewrite Hw.
      split; [done|]. unfold written_all in *. cbn [map concat].
      by rewrite Hw.
    + destruct (IH (length s)) with (s := s) as (ps & Hps & Hw);
        [cbn [length]; lia|done|].
      exists (Dollar :: ps). cbn [well_formed piece_ok may_follow]. rewrite Hw.
      split.
      * split; [done|]. split; [|done]. intros Hb.
        apply placeholder_begins in Hb. rewrite Hpl in Hb. by destruct Hb.
      * unfold written_all in *. cbn [map concat written app]. by rewrite Hw.
  - destruct (IH (length s)) with (s := s) as (ps & Hps & Hw);
      [cbn [length]; lia|done|].
    exists (Literal [c] :: ps). cbn [well_formed piece_ok may_follow].
    split.
    + split; [|done]. intros Hin. apply list_elem_of_singleton in Hin.
      by apply Hc.
    + unfold written_all in *. cbn [map concat written app]. by rewrite Hw.
Qed.

End SliceFacts.

(** ** C7: placeholders without a value *)

(** C7: resolving a template never fails on a missing name, and what it
    returns is what the contract says. The resolver is a total function of
    the template and the variable source. Every template is spelled by
    pieces of the contract (text, stray dollar signs, placeholders [$name]
    and [${name}] with or without a slice suffix), and on any pieces that
    spell the template the result is, piece after piece: the text as it
    stands; for a placeholder whose name the source holds, the value, and
    with a slice suffix [[start:stop]] the characters of the value from
    offset [start] up to and without offset [stop], a bound left out being
    the start or the end and a negative bound counting from the end; for a
    placeholder whose name the source lacks, the placeholder as written,
    slice suffix included. *)
Theorem C7_safe_substitute_keeps_missing (template : string)
    (mapping : string -> option string) :
  (exists ps,
     SlicedTemplate.well_formed ps
     /\ str (SlicedTemplate.written_all ps) = template)
  /\ (forall ps,
        SlicedTemplate.well_formed ps ->
        str (SlicedTemplate.written_all ps) = template ->
        SlicedTemplate.safe_substitute template mapping
        = str (SlicedTemplate.rendered_all mapping ps)).
Proof.
  split.
  - destruct (SliceFacts.pieces_exist (chars template)) as (ps & Hps & Hw).
    exists ps. split; [done|]. rewrite Hw.
    apply string_of_list_ascii_of_string.
  - intros ps Hps <-. unfold SlicedTemplate.safe_substitute.
    rewrite list_ascii_of_string_of_list_ascii.
    by rewrite SliceFacts.substitute_rendered.
Qed.

(** [${x}[-2:]/$y[:2]$z.] on a source that holds [x] alone. *)
Lemma C7_safe_substitute_keeps_missing_witness :
  let ps :=
    [SlicedTemplate.Var true (chars "x")
       (Some (SlicedTemplate.FromEnd (Decimal.D2 Decimal.Nil),
              SlicedTemplate.Omitted));
     SlicedTemplate.Literal (chars "/");
     SlicedTemplate.Var false (chars "y")
       (Some (SlicedTemplate.Omitted,
              SlicedTemplate.FromStart (Decimal.D2 Decimal.Nil)));
     SlicedTemplate.Var false (chars "z") None;
     SlicedTemplate.Literal (chars ".")] in
  let mapping := fun k => if String.eqb k "x" then Some "abcdef" else None in
  SlicedTemplate.well_formed ps
  /\ str (SlicedTemplate.written_all ps) = "${x}[-2:]/$y[:2]$z."
  /\ SlicedTemplate.safe_substitute "${x}[-2:]/$y[:2]$z." mapping
     = "ef/$y[:2]$z.".
Proof.
  intros ps mapping.
  assert (Hps : SlicedTemplate.well_formed ps).
  { assert (Hlit : forall c : ascii, c <> "$"%char -> "$"%char ∉ [c]).
    { intros c Hc Hin. apply list_elem_of_singleton in Hin. by apply Hc. }
    cbn. repeat split; try done; try (by apply Hlit).
    intros (start & stop & post & _ & _ & H). discriminate H. }
  split; [exact Hps|]. split; [reflexivity|].
  exact (proj2 (C7_safe_substitute_keeps_missing "${x}[-2:]/$y[:2]$z." mapping)
           ps Hps eq_refl).
Defined.

(** A template none of whose placeholders has a value comes out as it went
    in. *)
Lemma safe_substitute_nothing_found (template : string) :
  SlicedTemplate.safe_substitute template (fun _ => None) = template.
Proof.
  unfold SlicedTemplate.safe_substitute.
  rewrite TemplateFacts.substitute_from_tokens.
  rewrite <- (string_of_list_ascii_of_string template) at 2.
  f_equal.
  transitivity (drop 0 (chars template)); [|done].
  rewrite <- TemplateFacts.tokens_from_raw.
  reflexivity.
Qed.

(** The slicing examples of the contract. *)
Lemma safe_substitute_slices :
  SlicedTemplate.safe_substitute "$x[:2]"
    (fun k => if String.eqb k "x" then Some "abcdef" else None) = "ab"
  /\ SlicedTemplate.safe_substitute "$x[2:]"
       (fun k => if String.eqb k "x" then Some "abcdef" else None) = "cdef"
  /\ SlicedTemplate.safe_substitute "${x}[-2:]/$y[:2]"
       (fun k => if String.eqb k "x" then Some "abcdef" else None) = "ef/$y[:2]".
Proof. repeat split; vm_compute; reflexivity. Qed.

(** ** C2: the end-to-end example *)

Lemma groups_36_lookup :
  Sample.groups_36 !! "org_id" = Some "123"
  /\ Sample.groups_36 !! "cluster_id" = Some Sample.cluster_36
  /\ Sample.groups_36 !! "year" = Some "2024"
  /\ Sample.groups_36 !! "month" = Some "01"
  /\ Sample.groups_36 !! "day" = Some "01"
  /\ Sample.groups_36 !! "time" = Some "120000".
Proof. repeat split; vm_compute; reflexivity. Qed.

(** C2, as stated, fails: the cluster segment of the example path has 38
    characters, the pattern does not match it, and [process] raises the
    pattern-mismatch error without an upload and without a report. *)
Lemma C2_example_path_is_rejected :
  String.length "abcdefabcd-efab-cdef-abcd-efabcdefabcd" = 38
  /\ re_match S3_ARCHIVE_PATTERN Sample.path_38 = None
  /\ result_of Sample.engine_ok Sample.broker_38 "/tmp/archive" = Raise mismatch
  /\ count_uploads (trace_of Sample.engine_ok Sample.broker_38 "/tmp/archive") = 0.
Proof. repeat split; vm_compute; reflexivity. Qed.

(** C2 (amended): with the default template and no prefix, a broker whose
    [s3_path] is the example path is rejected with the pattern-mismatch
    error and nothing is uploaded. With the 36-character cluster id in the
    path and in the broker's [cluster_id], no [year], [month], [day] or
    [time] in the broker and an upload that completes, [process] computes
    the target path [ab/<cluster id>/202401/01/120000.tar.gz], passes it to
    the uploader and returns it in the report's [path] field. *)
Theorem C2_end_to_end self local_path :
  archive_name_template self
    = SlicedTemplate.safe_substitute default_archive_name_pattern ->
  archives_path_prefix self = None ->
  (forall b,
     b !! "s3_path" = Some Sample.path_38 ->
     result_of self b local_path = Raise mismatch
     /\ count_uploads (trace_of self b local_path) = 0)
  /\ (forall b,
        b !! "s3_path" = Some Sample.path_36 ->
        b !! "cluster_id" = Some Sample.cluster_36 ->
        b !! "year" = None -> b !! "month" = None ->
        b !! "day" = None -> b !! "time" = None ->
        uploader self local_path (dest_bucket self) Sample.target_36 = None ->
        compute_target_path self [b; Sample.groups_36] = Sample.target_36
        /\ UploadFile local_path (dest_bucket self) Sample.target_36
             ∈ trace_of self b local_path
        /\ count_uploads (trace_of self b local_path) = 1
        /\ exists metadata,
             result_of self b local_path
             = Ok (Json.dumps (JObject [("path", JString Sample.target_36);
                                        ("original_path", JString Sample.path_36);
                                        ("metadata", metadata)]))).
Proof.
  intros Htpl Hpre. split.
  - intros b Hp. run_paths. rewrite Hp, path_38_does_not_match.
    cbn [fst snd trace]. by count_trace.
  - intros b Hp Hc Hy Hmo Hd Ht Hu.
    destruct groups_36_lookup as (_ & _ & Gy & Gmo & Gd & Gt).
    assert (Htarget : compute_target_path self [b; Sample.groups_36] = Sample.target_36).
    { unfold compute_target_path. rewrite Htpl, Hpre.
      rewrite (TemplateFacts.default_pattern_render _
                 Sample.cluster_36 "2024" "01" "01" "120000").
      - vm_compute. reflexivity.
      - cbn [ChainMap.get]. by rewrite Hc.
      - cbn [ChainMap.get]. by rewrite Hy, Gy.
      - cbn [ChainMap.get]. by rewrite Hmo, Gmo.
      - cbn [ChainMap.get]. by rewrite Hd, Gd.
      - cbn [ChainMap.get]. by rewrite Ht, Gt. }
    split; [exact Htarget|].
    run_paths. rewrite Hp, path_36_matches. cbv zeta.
    rewrite Htarget, Hu, Hc. cbn [fst snd trace].
    split; [set_solver|]. split; [by count_trace|].
    eexists. reflexivity.
Qed.

Lemma C2_end_to_end_witness :
  (result_of Sample.engine_ok Sample.broker_38 "/tmp/archive" = Raise mismatch
   /\ count_uploads (trace_of Sample.engine_ok Sample.broker_38 "/tmp/archive") = 0)
  /\ (compute_target_path Sample.engine_ok [Sample.broker_36; Sample.groups_36]
      = Sample.target_36
      /\ count_uploads (trace_of Sample.engine_ok Sample.broker_36 "/tmp/archive") = 1
      /\ exists metadata,
           result_of Sample.engine_ok Sample.broker_36 "/tmp/archive"
           = Ok (Json.dumps (JObject [("path", JString Sample.target_36);
                                      ("original_path", JString Sample.path_36);
                                      ("metadata", metadata)]))).
Proof.
  assert (Htpl : archive_name_template Sample.engine_ok
                 = SlicedTemplate.safe_substitute default_archive_name_pattern)
    by (unfold Sample.engine_ok, init; cbn [archive_name_template]; reflexivity).
  destruct (C2_end_to_end Sample.engine_ok "/tmp/archive" Htpl eq_refl) as [A B].
  split.
  - apply A. vm_compute. reflexivity.
  - destruct (B Sample.broker_36) as (T & _ & U & R);
      try (vm_compute; reflexivity).
    repeat split; assumption.
Defined.

(** ** C9: the report *)

(** C9, as stated, fails: when the broker holds [org_id], the report's
    [external_organization] is the broker's value, not the matched one. *)
Lemma C9_broker_org_id_is_reported :
  Sample.groups_36 !! "org_id" = Some "123"
  /\ Sample.broker_with_org !! "org_id" = Some "999"
  /\ result_of Sample.engine_ok Sample.broker_with_org "/tmp/archive"
     = Ok (Json.dumps
             (JObject [("path", JString Sample.target_36);
                       ("original_path", JString Sample.path_36);
                       ("metadata",
                        JObject [("cluster_id", JString Sample.cluster_36);
                                 ("external_organization", JString "999")])])).
Proof. repeat split; vm_compute; reflexivity. Qed.

(** C9 (amended): when [process] returns, it returns the JSON text of an
    object with exactly the keys [path] (the resolved target path),
    [original_path] (the broker's [s3_path]) and [metadata]; [metadata] has
    exactly the keys [cluster_id] (the broker's [cluster_id]) and
    [external_organization] (the broker's [org_id] when the broker holds
    one, the matched [org_id] otherwise). *)
Theorem C9_report self b local_path out st :
  run_process self b local_path = (Ok out, st) ->
  exists s3_path groupdict cid org,
    b !! "s3_path" = Some s3_path
    /\ re_match S3_ARCHIVE_PATTERN s3_path = Some groupdict
    /\ b !! "cluster_id" = Some cid
    /\ groupdict !! "org_id" = Some org
    /\ out = Json.dumps
               (JObject [("path", JString (compute_target_path self [b; groupdict]));
                         ("original_path", JString s3_path);
                         ("metadata",
                          JObject [("cluster_id", JString cid);
                                   ("external_organization",
                                    JString (default org (b !! "org_id")))])]).
Proof.
  rewrite run_process_paths.
  destruct (b !! "s3_path") as [p|] eqn:Hp; [|discriminate].
  destruct (re_match S3_ARCHIVE_PATTERN p) as [g|] eqn:Hm; [|discriminate].
  cbv zeta.
  destruct (uploader self _ _ _); [discriminate|].
  destruct (b !! "cluster_id") as [cid|] eqn:Hc; [|discriminate].
  intros [= <- _].
  destruct (ReFacts.S3_match_sound _ _ Hm)
    as (org & c & y & mo & d & t & i & rest & _ & -> & _).
  destruct (ReFacts.groupdict_of_lookup org c y mo d t i) as (Horg & _).
  exists p, (groupdict_of org c y mo d t i), cid, (str org).
  repeat split; try done.
  unfold report_of, create_metadata. cbn [ChainMap.get].
  rewrite !after_template_plain by plain_key. rewrite Hc.
  destruct (b !! "org_id"); [done|]. by rewrite Horg.
Qed.

Lemma C9_report_witness :
  exists out st,
    run_process Sample.engine_ok Sample.broker_36 "/tmp/archive" = (Ok out, st)
    /\ exists s3_path groupdict cid org,
         Sample.broker_36 !! "s3_path" = Some s3_path
         /\ re_match S3_ARCHIVE_PATTERN s3_path = Some groupdict
         /\ Sample.broker_36 !! "cluster_id" = Some cid
         /\ groupdict !! "org_id" = Some org
         /\ out = Json.dumps
                    (JObject [("path",
                               JString (compute_target_path Sample.engine_ok
                                          [Sample.broker_36; groupdict]));
                              ("original_path", JString s3_path);
                              ("metadata",
                               JObject [("cluster_id", JString cid);
                                        ("external_organization",
                                         JString (default org
                                                    (Sample.broker_36 !! "org_id")))])]).
Proof.
  destruct run_sample_36 as (out & st & H).
  exists out, st. split; [exact H|].
  exact (C9_report _ _ _ _ _ H).
Defined.

(** ** C6: the characters of a cluster id *)

(** C6 fails on the code: the bracketed set of the [cluster_id] group lists
    the comma, so a 36-character segment with commas is matched as a
    cluster id although a comma is none of digit, lowercase letter and
    hyphen. *)
Theorem C6_comma_accepted_in_cluster_id :
  (re_match S3_ARCHIVE_PATTERN Sample.path_commas ≫= (.!! "cluster_id"))
  = Some Sample.cluster_commas
  /\ String.length Sample.cluster_commas = 36
  /\ forallb cluster_id_char (chars Sample.cluster_commas) = false.
Proof. repeat split; vm_compute; reflexivity. Qed.

(** ** The archive pattern, exactly *)

Module PatternFacts.

Import ReFacts.

Lemma str_app (a b : list ascii) : str (a ++ b) = str a +:+ str b.
Proof. induction a as [|c a IH]; simpl; [done|]. by rewrite IH. Qed.

Lemma append_assoc (a b c : string) : (a +:+ b) +:+ c = a +:+ b +:+ c.
Proof.
  induction a as [|x a IH]; [done|].
  change (String x ((a +:+ b) +:+ c) = String x (a +:+ b +:+ c)).
  by rewrite IH.
Qed.

Lemma str_length (a : list ascii) : String.length (str a) = length a.
Proof. induction a as [|c a IH]; simpl; [done|]. by rewrite IH. Qed.

Lemma str_inj (a b : list ascii) : str a = str b -> a = b.
Proof.
  intros H. rewrite <- (list_ascii_of_string_of_list_ascii a),
    <- (list_ascii_of_string_of_list_ascii b). by rewrite H.
Qed.

Lemma chars_app (a b : string) : chars (a +:+ b) = chars a ++ chars b.
Proof. induction a as [|c a IH]; simpl; [done|]. by rewrite IH. Qed.

Lemma backtrack_first {R : Type} (k : nat -> option R) lo n x :
  lo <= n -> k n = Some x -> backtrack k lo n = Some x.
Proof.
  intros Hlo Hk. destruct n; simpl.
  - destruct (Nat.ltb_spec 0 lo); [lia|]. by rewrite Hk.
  - destruct (Nat.ltb_spec (S n) lo); [lia|]. by rewrite Hk.
Qed.

Lemma span_exact cls w s' : forall hi,
  Forall (fun c => class_mem cls c = true) w ->
  (forall h, hi = Some h -> length w <= h) ->
  hi = Some (length w) \/ head_outside cls s' ->
  span cls hi (w ++ s') = length w.
Proof.
  induction w as [|c w IH]; intros hi HF Hh Hstop.
  - simpl. destruct Hstop as [->|Hs]; [by destruct s'|].
    destruct hi as [[|h]|], s' as [|c s']; simpl; try done;
      simpl in Hs; by rewrite Hs.
  - inversion HF as [|? ? Hc HF']; subst.
    destruct hi as [[|h]|]; simpl.
    + specialize (Hh 0 eq_refl). simpl in Hh. lia.
    + rewrite Hc. f_equal. apply IH; [done| |].
      * intros h' [= <-]. specialize (Hh (S h) eq_refl). simpl in Hh. lia.
      * destruct Hstop as [[= ->]|Hs]; [by left|by right].
    + rewrite Hc. f_equal. apply IH; [done| |].
      * intros h' [=].
      * destruct Hstop as [[=]|Hs]. by right.
Qed.

(** On a greedy reading the matcher needs no backtracking: it hands the
    continuation the rest and the groups of that reading. *)
Lemma rmatch_greedy r w s' g g' :
  greedy r w s' g g' ->
  forall (R : Type) (k : list ascii -> gmap string string -> option R) x,
    k s' g' = Some x -> rmatch r (w ++ s') g k = Some x.
Proof.
  induction 1 as [s' g|c s' g|cls lo hi w s' g HF Hlo Hhi Hstop
                  |r1 r2 w1 w2 s' g g1 g2 _ IH1 _ IH2
                  |name r w s' g g' _ IH]; intros R k x Hk; simpl.
  - done.
  - by rewrite Ascii.eqb_refl.
  - rewrite span_exact by done.
    apply backtrack_first; [done|]. by rewrite drop_app_length.
  - rewrite <- app_assoc. apply IH1. by apply IH2.
  - apply IH. by rewrite length_app, Nat.add_sub, take_app_length.
Qed.

Lemma span_in_class cls s :
  Forall (fun c => class_mem cls c = true) (take (span cls None s) s).
Proof. by destruct (span_prefix cls s None (span cls None s)). Qed.

Lemma span_stops cls s : head_outside cls (drop (span cls None s) s).
Proof.
  induction s as [|c s IH]; simpl; [done|].
  destruct (class_mem cls c) eqn:Hc; simpl; done.
Qed.

Ltac build_greedy :=
  repeat match goal with
    | |- greedy (Cat _ _) _ _ _ _ => eapply greedy_Cat
    | |- greedy (Named _ _) _ _ _ _ => eapply greedy_Named
    | |- greedy (Lit _) _ _ _ _ => eapply greedy_Lit
    | |- greedy (Rep _ _ _) _ _ _ _ => eapply greedy_Rep
    end.

(** A path of the archive shape whose id is not continued by the rest is
    matched with exactly its components as groups. *)
Lemma S3_match_exact org cid year month day time id rest :
  1 <= length org /\ in_class digit_class org ->
  length cid = 36 /\ in_class cluster_id_class cid ->
  length year = 4 /\ in_class digit_class year ->
  length month = 2 /\ in_class digit_class month ->
  length day = 2 /\ in_class digit_class day ->
  length time = 6 /\ in_class digit_class time ->
  in_class id_class id ->
  head_outside id_class rest ->
  re_match S3_ARCHIVE_PATTERN
    (str (path_text org cid year month day time id rest))
  = Some (groupdict_of org cid year month day time id).
Proof.
  intros [Ho1 Ho2] [Hc1 Hc2] [Hy1 Hy2] [Hm1 Hm2] [Hd1 Hd2] [Ht1 Ht2] Hi Hrest.
  unfold re_match, path_text. rewrite list_ascii_of_string_of_list_ascii.
  replace (org ++ ["/"%char] ++ cid ++ ["/"%char]
           ++ (year ++ month ++ day ++ time) ++ ["-"%char] ++ id ++ rest)
    with ((org ++ ["/"%char] ++ cid ++ ["/"%char]
           ++ ((year ++ month ++ day ++ time) ++ ["-"%char] ++ id)) ++ rest)
    by (rewrite <- ?app_assoc; reflexivity).
  eapply rmatch_greedy; [|unfold groupdict_of; reflexivity].
  unfold S3_ARCHIVE_PATTERN. build_greedy;
    try assumption; try lia; try (intros ? [= <-]; lia); try (intros ? [=]).
  - right. reflexivity.
  - left. by rewrite Hc1.
  - left. by rewrite Hy1.
  - left. by rewrite Hm1.
  - left. by rewrite Hd1.
  - left. by rewrite Ht1.
  - by right.
Qed.


Lemma split_at_slash (a a' r r' : list ascii) :
  "/"%char ∉ a -> "/"%char ∉ a' ->
  a ++ "/"%char :: r = a' ++ "/"%char :: r' ->
  a = a' /\ r = r'.
Proof.
  revert a'. induction a as [|c a IH]; intros a' Ha Ha' H.
  - destruct a' as [|c' a']; simpl in H; [by injection H|].
    injection H as <- _. exfalso. apply Ha'. constructor.
  - destruct a' as [|c' a']; simpl in H.
    + injection H as -> _. exfalso. apply Ha. constructor.
    + injection H as <- H.
      destruct (IH a') as [-> ->]; [| |done|done].
      * intros Hin. apply Ha. by constructor.
      * intros Hin. apply Ha'. by constructor.
Qed.

Lemma in_class_no_slash cls w :
  class_mem cls "/" = false -> in_class cls w -> "/"%char ∉ w.
Proof.
  intros Hs Hw Hin. unfold in_class in Hw. rewrite Forall_forall in Hw.
  specialize (Hw _ Hin). congruence.
Qed.

(** Two readings of one text as a path agree on everything before the id. *)
Lemma path_text_unique org cid y mo d t i rest org' cid' y' mo' d' t' i' rest' :
  path_text org cid y mo d t i rest = path_text org' cid' y' mo' d' t' i' rest' ->
  in_class digit_class org -> in_class digit_class org' ->
  length cid = 36 -> length cid' = 36 ->
  length y = 4 -> length y' = 4 -> length mo = 2 -> length mo' = 2 ->
  length d = 2 -> length d' = 2 -> length t = 6 -> length t' = 6 ->
  org = org' /\ cid = cid' /\ y = y' /\ mo = mo' /\ d = d' /\ t = t'
  /\ i ++ rest = i' ++ rest'.
Proof.
  unfold path_text. intros H Ho Ho' Hc Hc' Hy Hy' Hm Hm' Hd Hd' Ht Ht'.
  rewrite <- ?app_assoc in H. simpl in H.
  apply split_at_slash in H as [-> H];
    [|by apply (in_class_no_slash digit_class)..].
  apply app_inj_1 in H as [-> H]; [|lia]. injection H as H.
  apply app_inj_1 in H as [-> H]; [|lia].
  apply app_inj_1 in H as [-> H]; [|lia].
  apply app_inj_1 in H as [-> H]; [|lia].
  apply app_inj_1 in H as [-> H]; [|lia]. injection H as H.
  done.
Qed.

Lemma S3_match_shape p g :
  re_match S3_ARCHIVE_PATTERN p = Some g ->
  exists org cid year month day time id rest,
    chars p = path_text org cid year month day time id rest
    /\ g = groupdict_of org cid year month day time id
    /\ (1 <= length org /\ in_class digit_class org)
    /\ (length cid = 36 /\ in_class cluster_id_class cid)
    /\ (length year = 4 /\ in_class digit_class year)
    /\ (length month = 2 /\ in_class digit_class month)
    /\ (length day = 2 /\ in_class digit_class day)
    /\ (length time = 6 /\ in_class digit_class time)
    /\ in_class id_class id
    /\ head_outside id_class rest.
Proof.
  intros H.
  destruct (S3_match_sound _ _ H)
    as (org & cid & y & mo & d & t & i & rest & Hp & _ & Ho & Hc & Hy & Hm & Hd & Ht & Hi).
  set (n := span id_class None rest).
  assert (Hi' : in_class id_class (i ++ take n rest))
    by (apply Forall_app; split; [done|apply span_in_class]).
  assert (Hr : head_outside id_class (drop n rest)) by apply span_stops.
  assert (Hp' : chars p = path_text org cid y mo d t (i ++ take n rest) (drop n rest)).
  { rewrite Hp. unfold path_text. by rewrite <- (app_assoc i), take_drop. }
  pose proof (S3_match_exact org cid y mo d t _ _ Ho Hc Hy Hm Hd Ht Hi' Hr) as E.
  rewrite <- Hp', string_of_list_ascii_of_string, H in E. injection E as ->.
  exists org, cid, y, mo, d, t, (i ++ take n rest), (drop n rest).
  repeat split; try done; tauto.
Qed.

Lemma groupdict_of_nested org cid year month day time id :
  let g := groupdict_of org cid year month day time id in
  g !! "timestamp" = Some (str (year ++ month ++ day ++ time))
  /\ g !! "archive" = Some (str ((year ++ month ++ day ++ time) ++ ["-"%char] ++ id)).
Proof.
  unfold groupdict_of. cbv zeta.
  split; repeat (rewrite lookup_insert_ne by discriminate);
    apply lookup_insert_eq.
Qed.

Lemma groupdict_of_dom org cid year month day time id :
  dom (groupdict_of org cid year month day time id) = group_names.
Proof.
  unfold groupdict_of, group_names. rewrite !dom_insert_L, dom_empty_L.
  simpl. set_solver.
Qed.

End PatternFacts.

(** X1: the archive pattern matches a path exactly when the path reads
    [<org_id>/<cluster_id>/<year><month><day><time>-<id>] followed by
    anything that does not continue the id, with [org_id] one or more
    digits, [cluster_id] 36 characters of its set, year, month, day and
    time 4, 2, 2 and 6 digits and [id] any run of its set; the groups are
    then those components. *)
Theorem X1_match_characterised (p : string) (g : gmap string string) :
  re_match S3_ARCHIVE_PATTERN p = Some g
  <-> exists org cid year month day time id rest,
        chars p = path_text org cid year month day time id rest
        /\ g = groupdict_of org cid year month day time id
        /\ (1 <= length org /\ in_class digit_class org)
        /\ (length cid = 36 /\ in_class cluster_id_class cid)
        /\ (length year = 4 /\ in_class digit_class year)
        /\ (length month = 2 /\ in_class digit_class month)
        /\ (length day = 2 /\ in_class digit_class day)
        /\ (length time = 6 /\ in_class digit_class time)
        /\ in_class id_class id
        /\ head_outside id_class rest.
Proof.
  split; [apply PatternFacts.S3_match_shape|].
  intros (org & cid & y & mo & d & t & i & rest & Hp & -> & Ho & Hc & Hy & Hm
          & Hd & Ht & Hi & Hr).
  rewrite <- (string_of_list_ascii_of_string p), Hp.
  by apply PatternFacts.S3_match_exact.
Qed.

(** X2: the groups of a match fit together: the path starts with
    [org_id/cluster_id/archive], [archive] is [timestamp-id] and
    [timestamp] is year, month, day and time in a row. *)
Theorem X2_groups_reassemble (p : string) (g : gmap string string) :
  re_match S3_ARCHIVE_PATTERN p = Some g ->
  exists org cid archive timestamp year month day time id rest,
    g !! "org_id" = Some org /\ g !! "cluster_id" = Some cid
    /\ g !! "archive" = Some archive /\ g !! "timestamp" = Some timestamp
    /\ g !! "year" = Some year /\ g !! "month" = Some month
    /\ g !! "day" = Some day /\ g !! "time" = Some time /\ g !! "id" = Some id
    /\ p = org +:+ "/" +:+ cid +:+ "/" +:+ archive +:+ rest
    /\ archive = timestamp +:+ "-" +:+ id
    /\ timestamp = year +:+ month +:+ day +:+ time.
Proof.
  intros H.
  destruct (PatternFacts.S3_match_shape _ _ H)
    as (org & cid & y & mo & d & t & i & rest & Hp & -> & _).
  destruct (ReFacts.groupdict_of_lookup org cid y mo d t i)
    as (G1 & G2 & G3 & G4 & G5 & G6 & G7).
  destruct (PatternFacts.groupdict_of_nested org cid y mo d t i) as (G8 & G9).
  exists (str org), (str cid), (str ((y ++ mo ++ d ++ t) ++ ["-"%char] ++ i)),
    (str (y ++ mo ++ d ++ t)), (str y), (str mo), (str d), (str t), (str i), (str rest).
  repeat split; try done.
  - rewrite <- (string_of_list_ascii_of_string p), Hp. unfold path_text.
    rewrite !PatternFacts.str_app, ?PatternFacts.append_assoc. reflexivity.
  - rewrite !PatternFacts.str_app, ?PatternFacts.append_assoc. reflexivity.
  - rewrite !PatternFacts.str_app, ?PatternFacts.append_assoc. reflexivity.
Qed.

Lemma X2_groups_reassemble_witness :
  re_match S3_ARCHIVE_PATTERN Sample.path_36 = Some Sample.groups_36
  /\ exists org cid archive timestamp year month day time id rest,
       Sample.groups_36 !! "org_id" = Some org
       /\ Sample.groups_36 !! "cluster_id" = Some cid
       /\ Sample.groups_36 !! "archive" = Some archive
       /\ Sample.groups_36 !! "timestamp" = Some timestamp
       /\ Sample.groups_36 !! "year" = Some year
       /\ Sample.groups_36 !! "month" = Some month
       /\ Sample.groups_36 !! "day" = Some day
       /\ Sample.groups_36 !! "time" = Some time
       /\ Sample.groups_36 !! "id" = Some id
       /\ Sample.path_36 = org +:+ "/" +:+ cid +:+ "/" +:+ archive +:+ rest
       /\ archive = timestamp +:+ "-" +:+ id
       /\ timestamp = year +:+ month +:+ day +:+ time.
Proof.
  split; [exact path_36_matches|].
  exact (X2_groups_reassemble _ _ path_36_matches).
Defined.

(** X3: a match yields exactly the nine named groups, with a non-empty
    [org_id], a [cluster_id] of 36 characters, a [timestamp] of 14, and
    year, month, day and time of 4, 2, 2 and 6. *)
Theorem X3_groups_and_lengths (p : string) (g : gmap string string) :
  re_match S3_ARCHIVE_PATTERN p = Some g ->
  dom g = group_names
  /\ exists org cid timestamp year month day time,
       g !! "org_id" = Some org /\ 1 <= String.length org
       /\ g !! "cluster_id" = Some cid /\ String.length cid = 36
       /\ g !! "timestamp" = Some timestamp /\ String.length timestamp = 14
       /\ g !! "year" = Some year /\ String.length year = 4
       /\ g !! "month" = Some month /\ String.length month = 2
       /\ g !! "day" = Some day /\ String.length day = 2
       /\ g !! "time" = Some time /\ String.length time = 6.
Proof.
  intros H.
  destruct (PatternFacts.S3_match_shape _ _ H)
    as (org & cid & y & mo & d & t & i & rest & _ & -> & [Ho _] & [Hc _] & [Hy _]
        & [Hm _] & [Hd _] & [Ht _] & _).
  split; [apply PatternFacts.groupdict_of_dom|].
  destruct (ReFacts.groupdict_of_lookup org cid y mo d t i)
    as (G1 & G2 & G3 & G4 & G5 & G6 & _).
  destruct (PatternFacts.groupdict_of_nested org cid y mo d t i) as (G8 & _).
  exists (str org), (str cid), (str (y ++ mo ++ d ++ t)), (str y), (str mo),
    (str d), (str t).
  rewrite !PatternFacts.str_length, !length_app.
  repeat split; (done || lia).
Qed.

Lemma X3_groups_and_lengths_witness :
  re_match S3_ARCHIVE_PATTERN Sample.path_36 = Some Sample.groups_36
  /\ dom Sample.groups_36 = group_names.
Proof.
  split; [exact path_36_matches|].
  exact (proj1 (X3_groups_and_lengths _ _ path_36_matches)).
Defined.

(** X4: the pattern is anchored at the start only: a path that matches
    still matches with anything appended, and org_id, cluster_id,
    timestamp, year, month, day and time stay what they were. *)
Theorem X4_trailing_text_allowed (p s : string) (g : gmap string string) :
  re_match S3_ARCHIVE_PATTERN p = Some g ->
  exists g',
    re_match S3_ARCHIVE_PATTERN (p +:+ s) = Some g'
    /\ g' !! "org_id" = g !! "org_id"
    /\ g' !! "cluster_id" = g !! "cluster_id"
    /\ g' !! "timestamp" = g !! "timestamp"
    /\ g' !! "year" = g !! "year"
    /\ g' !! "month" = g !! "month"
    /\ g' !! "day" = g !! "day"
    /\ g' !! "time" = g !! "time".
Proof.
  intros H.
  destruct (PatternFacts.S3_match_shape _ _ H)
    as (org & cid & y & mo & d & t & i & rest & Hp & -> & Ho & Hc & Hy & Hm & Hd
        & Ht & Hi & _).
  destruct (ReFacts.S3_match_complete org cid y mo d t i (rest ++ chars s))
    as [g' Hg']; try done.
  assert (Hps : str (org ++ ["/"%char] ++ cid ++ ["/"%char]
                     ++ (y ++ mo ++ d ++ t) ++ ["-"%char] ++ i ++ rest ++ chars s)
                = p +:+ s).
  { rewrite <- (string_of_list_ascii_of_string (p +:+ s)), PatternFacts.chars_app, Hp.
    unfold path_text. by rewrite <- ?app_assoc. }
  rewrite Hps in Hg'. exists g'. split; [done|].
  destruct (PatternFacts.S3_match_shape _ _ Hg')
    as (org' & cid' & y' & mo' & d' & t' & i' & rest' & Hp' & -> & Ho' & Hc' & Hy'
        & Hm' & Hd' & Ht' & _).
  rewrite <- Hps, list_ascii_of_string_of_list_ascii in Hp'.
  destruct (PatternFacts.path_text_unique org cid y mo d t i (rest ++ chars s)
              org' cid' y' mo' d' t' i' rest')
    as (-> & -> & -> & -> & -> & -> & _); try tauto.
Qed.

Lemma X4_trailing_text_allowed_witness :
  re_match S3_ARCHIVE_PATTERN Sample.path_36 = Some Sample.groups_36
  /\ exists g',
       re_match S3_ARCHIVE_PATTERN (Sample.path_36 +:+ ".tar.gz") = Some g'
       /\ g' !! "cluster_id" = Sample.groups_36 !! "cluster_id".
Proof.
  split; [exact path_36_matches|].
  destruct (X4_trailing_text_allowed _ ".tar.gz" _ path_36_matches)
    as (g' & H1 & _ & H2 & _).
  exists g'. split; assumption.
Defined.

(** X5: the pattern is anchored at the start: an empty path, or one whose
    first character is not a digit, does not match. *)
Theorem X5_must_start_with_digit (p : string) :
  head_outside digit_class (chars p) ->
  re_match S3_ARCHIVE_PATTERN p = None.
Proof.
  intros Hh. destruct (re_match S3_ARCHIVE_PATTERN p) as [g|] eqn:H; [|done].
  destruct (PatternFacts.S3_match_shape _ _ H)
    as (org & cid & y & mo & d & t & i & rest & Hp & _ & [Ho1 Ho2] & _).
  rewrite Hp in Hh. unfold path_text in Hh.
  destruct org as [|c org]; [simpl in Ho1; lia|].
  change (class_mem digit_class c = false) in Hh.
  apply Forall_cons in Ho2 as [Hc _]. cbv beta in Hc.
  rewrite Hh in Hc. discriminate Hc.
Qed.

Lemma X5_must_start_with_digit_witness :
  head_outside digit_class (chars ("/" +:+ Sample.path_36))
  /\ re_match S3_ARCHIVE_PATTERN ("/" +:+ Sample.path_36) = None.
Proof.
  assert (H : head_outside digit_class (chars ("/" +:+ Sample.path_36)))
    by (vm_compute; reflexivity).
  split; [exact H|]. exact (X5_must_start_with_digit _ H).
Defined.

(** X6: after the digits of the organisation and a slash, the text up to
    the next slash has to be a cluster id: when it does not have 36
    characters, or holds a character outside the set of the pattern, the
    path does not match. *)
Theorem X6_cluster_segment_checked (p : string) (org seg rest : list ascii) :
  chars p = org ++ "/"%char :: seg ++ "/"%char :: rest ->
  in_class digit_class org ->
  "/"%char ∉ seg ->
  length seg <> 36 \/ ~ in_class cluster_id_class seg ->
  re_match S3_ARCHIVE_PATTERN p = None.
Proof.
  intros Hp Ho Hs Hbad.
  destruct (re_match S3_ARCHIVE_PATTERN p) as [g|] eqn:H; [|done].
  destruct (PatternFacts.S3_match_shape _ _ H)
    as (org' & cid & y & mo & d & t & i & rest' & Hp' & _ & [_ Ho'] & [Hc1 Hc2] & _).
  rewrite Hp in Hp'. unfold path_text in Hp'. simpl in Hp'.
  apply PatternFacts.split_at_slash in Hp' as [-> Hp'];
    [|by apply (PatternFacts.in_class_no_slash digit_class)..].
  apply PatternFacts.split_at_slash in Hp' as [-> _];
    [|done|by apply (PatternFacts.in_class_no_slash cluster_id_class)].
  destruct Hbad as [Hl|Hc]; [lia|done].
Qed.

Lemma X6_cluster_segment_checked_witness :
  length (chars "abcdefabcd-efab-cdef-abcd-efabcdefabcd") <> 36
  /\ re_match S3_ARCHIVE_PATTERN Sample.path_38 = None.
Proof.
  assert (H : length (chars "abcdefabcd-efab-cdef-abcd-efabcdefabcd") <> 36)
    by (vm_compute; lia).
  split; [exact H|].
  apply (X6_cluster_segment_checked Sample.path_38 (chars "123")
           (chars "abcdefabcd-efab-cdef-abcd-efabcdefabcd")
           (chars "20240101120000-xyz123")).
  - reflexivity.
  - repeat constructor.
  - intros Hin. apply list_elem_of_In in Hin. vm_compute in Hin.
    repeat (destruct Hin as [Hin|Hin]; [discriminate Hin|]). exact Hin.
  - left. exact H.
Defined.

(** ** More on one invocation of [process] *)

(** X7: a broker without [s3_path] makes [process] raise [KeyError] for
    that key right after [pre_extract]: no watcher is handed the broker,
    nothing is uploaded and the broker is left as it was. *)
Theorem X7_missing_s3_path self b local_path :
  b !! "s3_path" = None ->
  result_of self b local_path = Raise (KeyError "s3_path")
  /\ trace_of self b local_path = [Fire "pre_extract" b (ALocalPath local_path)]
  /\ broker_after self b local_path = b.
Proof. intros Hp. run_paths. by rewrite Hp. Qed.

Lemma X7_missing_s3_path_witness :
  (∅ : gmap string string) !! "s3_path" = None
  /\ result_of Sample.engine_ok ∅ "/tmp/archive" = Raise (KeyError "s3_path")
  /\ trace_of Sample.engine_ok ∅ "/tmp/archive"
     = [Fire "pre_extract" ∅ (ALocalPath "/tmp/archive")].
Proof.
  assert (H : (∅ : gmap string string) !! "s3_path" = None) by reflexivity.
  split; [exact H|].
  destruct (X7_missing_s3_path Sample.engine_ok ∅ "/tmp/archive" H) as (R & T & _).
  split; assumption.
Defined.

(** X8: [process] returns exactly when the broker holds an [s3_path] that
    matches the pattern, the upload completes and the broker holds
    [cluster_id]. *)
Theorem X8_returns_iff self b local_path :
  (exists out, result_of self b local_path = Ok out)
  <-> exists s3_path groupdict,
        b !! "s3_path" = Some s3_path
        /\ re_match S3_ARCHIVE_PATTERN s3_path = Some groupdict
        /\ uploader self local_path (dest_bucket self)
             (compute_target_path self [b; groupdict]) = None
        /\ is_Some (b !! "cluster_id").
Proof.
  run_paths. split.
  - intros [out H].
    destruct (b !! "s3_path") as [p|] eqn:Hp; [|discriminate].
    destruct (re_match S3_ARCHIVE_PATTERN p) as [g|] eqn:Hm; [|discriminate].
    cbv zeta in H.
    destruct (uploader self local_path (dest_bucket self) _) eqn:Hu; [discriminate|].
    destruct (b !! "cluster_id") eqn:Hc; [|discriminate].
    exists p, g. repeat split; eauto.
  - intros (p & g & -> & -> & Hu & [cid ->]). cbv zeta. rewrite Hu. eauto.
Qed.

(** X9: when [process] raises, its cleanup has not run and nothing has been
    removed from the broker: every key it held is still there, [s3_path]
    and [cluster_id] with the values they had. The exception is one of:
    [KeyError] for [s3_path], the pattern-mismatch error, what the uploader
    raised, [KeyError] for [cluster_id]. *)
Theorem X9_failure_removes_nothing self b local_path e :
  result_of self b local_path = Raise e ->
  (forall k, is_Some (b !! k) -> is_Some (broker_after self b local_path !! k))
  /\ broker_after self b local_path !! "s3_path" = b !! "s3_path"
  /\ broker_after self b local_path !! "cluster_id" = b !! "cluster_id"
  /\ (e = KeyError "s3_path" /\ b !! "s3_path" = None
      \/ e = mismatch
      \/ e = KeyError "cluster_id" /\ b !! "cluster_id" = None
      \/ exists s3_path groupdict,
           b !! "s3_path" = Some s3_path
           /\ re_match S3_ARCHIVE_PATTERN s3_path = Some groupdict
           /\ uploader self local_path (dest_bucket self)
                (compute_target_path self [b; groupdict]) = Some e).
Proof.
  run_paths.
  destruct (b !! "s3_path") as [p|] eqn:Hp.
  2:{ intros [= <-]. cbn [snd broker]. repeat split; try done. by left. }
  destruct (re_match S3_ARCHIVE_PATTERN p) as [g|] eqn:Hm; cbv zeta.
  2:{ intros [= <-]. cbn [snd broker]. repeat split; try done. right. by left. }
  assert (Hkeep : forall k, is_Some (b !! k) -> is_Some (after_template self b g !! k))
    by (intros k; apply after_template_keeps).
  assert (Hp' : after_template self b g !! "s3_path" = Some p)
    by (rewrite <- Hp; apply after_template_plain; plain_key).
  assert (Hc' : after_template self b g !! "cluster_id" = b !! "cluster_id")
    by (apply after_template_plain; plain_key).
  destruct (uploader self local_path (dest_bucket self) _) as [e'|] eqn:Hu.
  { intros [= <-]. cbn [snd broker]. repeat split; try done. do 3 right. eauto. }
  destruct (b !! "cluster_id") eqn:Hc; [discriminate|].
  intros [= <-]. cbn [snd broker]. repeat split; try done. right. right. by left.
Qed.

Lemma X9_failure_removes_nothing_witness :
  result_of Sample.engine_ok Sample.broker_path_only "/tmp/archive"
    = Raise (KeyError "cluster_id")
  /\ broker_after Sample.engine_ok Sample.broker_path_only "/tmp/archive" !! "s3_path"
     = Sample.broker_path_only !! "s3_path".
Proof.
  assert (H : result_of Sample.engine_ok Sample.broker_path_only "/tmp/archive"
              = Raise (KeyError "cluster_id")) by (vm_compute; reflexivity).
  split; [exact H|].
  exact (proj1 (proj2 (X9_failure_removes_nothing _ _ _ _ H))).
Defined.

(** X10: whenever the broker holds [s3_path], the invocation starts with
    [pre_extract] and then hands the broker to every watcher, once each and
    in the order of [self.watchers], before it does anything else; this is
    so also when the path then fails to match. *)
Theorem X10_watchers_see_the_broker self b local_path s3_path :
  b !! "s3_path" = Some s3_path ->
  exists tail,
    trace_of self b local_path
    = Fire "pre_extract" b (ALocalPath local_path)
      :: map (fun w => WatchBroker w b) (watchers self) ++ tail
    /\ tail <> []
    /\ List.filter is_watch_broker tail = [].
Proof.
  intros Hp. run_paths. rewrite Hp. cbv zeta. unfold prologue.
  destruct (re_match S3_ARCHIVE_PATTERN s3_path) as [g|].
  2:{ eexists. split; [reflexivity|]. done. }
  destruct (uploader self local_path (dest_bucket self) _).
  { eexists. split; [reflexivity|]. done. }
  destruct (b !! "cluster_id"); eexists; (split; [reflexivity|]); done.
Qed.

Lemma X10_watchers_see_the_broker_witness :
  Sample.broker_invalid !! "s3_path" = Some "not-a-valid-path"
  /\ exists tail,
       trace_of Sample.engine_ok Sample.broker_invalid "/tmp/archive"
       = Fire "pre_extract" Sample.broker_invalid (ALocalPath "/tmp/archive")
         :: map (fun w => WatchBroker w Sample.broker_invalid)
              (watchers Sample.engine_ok) ++ tail
       /\ tail <> []
       /\ List.filter is_watch_broker tail = [].
Proof.
  assert (H : Sample.broker_invalid !! "s3_path" = Some "not-a-valid-path")
    by (vm_compute; reflexivity).
  split; [exact H|].
  exact (X10_watchers_see_the_broker Sample.engine_ok _ "/tmp/archive" _ H).
Defined.

Lemma upload_after_prologue self b local_path l bucket target tail :
  UploadFile l bucket target ∈ prologue self b local_path ++ tail ->
  UploadFile l bucket target ∈ tail.
Proof.
  intros Hin. apply elem_of_app in Hin as [Hin|Hin]; [|done].
  unfold prologue in Hin.
  apply elem_of_cons in Hin as [Hin|Hin]; [discriminate|].
  apply list_elem_of_fmap in Hin as (w & Hw & _). discriminate.
Qed.

(** X11: an invocation uploads at most once, and once exactly when the
    broker's [s3_path] matches the pattern; the upload is of the local path
    it was given, to [dest_bucket], under the computed target path. *)
Theorem X11_one_upload_at_most self b local_path :
  count_uploads (trace_of self b local_path) <= 1
  /\ (count_uploads (trace_of self b local_path) = 1
      <-> exists s3_path groupdict,
            b !! "s3_path" = Some s3_path
            /\ re_match S3_ARCHIVE_PATTERN s3_path = Some groupdict)
  /\ (forall l bucket target,
        UploadFile l bucket target ∈ trace_of self b local_path ->
        l = local_path /\ bucket = dest_bucket self
        /\ exists s3_path groupdict,
             b !! "s3_path" = Some s3_path
             /\ re_match S3_ARCHIVE_PATTERN s3_path = Some groupdict
             /\ target = compute_target_path self [b; groupdict]).
Proof.
  run_paths.
  destruct (b !! "s3_path") as [p|] eqn:Hp.
  2:{ cbn [snd trace]. split; [count_trace; lia|]. split.
      - count_trace. split; [discriminate|]. intros (p & g & H & _). discriminate.
      - intros l bk t Hin. apply list_elem_of_singleton in Hin. discriminate. }
  destruct (re_match S3_ARCHIVE_PATTERN p) as [g|] eqn:Hm; cbv zeta.
  2:{ cbn [snd trace]. split; [count_trace; lia|]. split.
      - count_trace. split; [discriminate|].
        intros (p' & g & [= <-] & H). congruence.
      - intros l bk t Hin. apply upload_after_prologue in Hin.
        apply list_elem_of_singleton in Hin. discriminate. }
  destruct (uploader self local_path (dest_bucket self) _) as [e|].
  { cbn [snd trace]. split; [count_trace; lia|]. split.
    - count_trace. split; eauto.
    - intros l bk t Hin. apply upload_after_prologue in Hin.
      apply list_elem_of_singleton in Hin. injection Hin as -> -> ->. eauto 10. }
  destruct (b !! "cluster_id"); cbn [snd trace];
    (split; [count_trace; lia|]); (split; [count_trace; split; eauto|]);
    intros l bk t Hin; apply upload_after_prologue in Hin;
    (apply elem_of_cons in Hin as [[= -> -> ->]|Hin]; [eauto 10|]);
    apply list_elem_of_singleton in Hin; discriminate.
Qed.

(** X12: an invocation that returns has made exactly these calls, in this
    order: [pre_extract], [watch_broker] on each watcher, one upload,
    [on_engine_success]. The report fired is the report returned and its
    [path] is the target of the upload. [on_engine_success] is shown the
    broker before the cleanup: as the template call left it, with every key
    it held before the call, [s3_path] and [cluster_id] among them. *)
Theorem X12_calls_of_a_return self b local_path out st :
  run_process self b local_path = (Ok out, st) ->
  exists s3_path groupdict target_path metadata,
    let r := [("path", JString target_path);
              ("original_path", JString s3_path);
              ("metadata", metadata)] in
    let b' := after_template self b groupdict in
    re_match S3_ARCHIVE_PATTERN s3_path = Some groupdict
    /\ trace st
       = Fire "pre_extract" b (ALocalPath local_path)
         :: map (fun w => WatchBroker w b) (watchers self)
         ++ [UploadFile local_path (dest_bucket self) target_path;
             Fire "on_engine_success" b' (AReport r)]
    /\ out = Json.dumps (JObject r)
    /\ b !! "s3_path" = Some s3_path
    /\ b' !! "s3_path" = Some s3_path
    /\ is_Some (b !! "cluster_id")
    /\ b' !! "cluster_id" = b !! "cluster_id"
    /\ (forall k, is_Some (b !! k) -> is_Some (b' !! k)).
Proof.
  rewrite run_process_paths.
  destruct (b !! "s3_path") as [p|] eqn:Hp; [|discriminate].
  destruct (re_match S3_ARCHIVE_PATTERN p) as [g|] eqn:Hm; [|discriminate].
  cbv zeta.
  destruct (uploader self _ _ _); [discriminate|].
  destruct (b !! "cluster_id") as [cid|] eqn:Hc; [|discriminate].
  intros [= <- <-].
  exists p, g, (compute_target_path self [b; g]),
    (create_metadata [after_template self b g; g]).
  cbv zeta. cbn [trace]. unfold prologue, report_of.
  split; [done|]. split; [done|]. split; [done|]. split; [done|]. repeat split.
  - rewrite <- Hp. apply after_template_plain. plain_key.
  - eauto.
  - rewrite <- Hc. apply after_template_plain. plain_key.
  - intros k. apply after_template_keeps.
Qed.

Lemma X12_calls_of_a_return_witness :
  exists out st,
    run_process Sample.engine_ok Sample.broker_36 "/tmp/archive" = (Ok out, st)
    /\ exists s3_path groupdict target_path metadata,
         trace st
         = Fire "pre_extract" Sample.broker_36 (ALocalPath "/tmp/archive")
           :: map (fun w => WatchBroker w Sample.broker_36)
                (watchers Sample.engine_ok)
           ++ [UploadFile "/tmp/archive" (dest_bucket Sample.engine_ok) target_path;
               Fire "on_engine_success"
                 (after_template Sample.engine_ok Sample.broker_36 groupdict)
                 (AReport [("path", JString target_path);
                           ("original_path", JString s3_path);
                           ("metadata", metadata)])]
         /\ out = Json.dumps (JObject [("path", JString target_path);
                                       ("original_path", JString s3_path);
                                       ("metadata", metadata)]).
Proof.
  destruct run_sample_36 as (out & st & H).
  exists out, st. split; [exact H|].
  destruct (X12_calls_of_a_return _ _ _ _ _ H) as (p & g & t & m & _ & T & O & _).
  exists p, g, t, m. split; assumption.
Defined.

(** X13: the broker a returning invocation leaves behind cannot be
    processed again: a second invocation, of any engine, raises [KeyError]
    for [s3_path] right after [pre_extract] and uploads nothing. *)
Theorem X13_no_second_run self self' b local_path local_path' out st :
  run_process self b local_path = (Ok out, st) ->
  result_of self' (broker st) local_path' = Raise (KeyError "s3_path")
  /\ trace_of self' (broker st) local_path'
     = [Fire "pre_extract" (broker st) (ALocalPath local_path')]
  /\ count_uploads (trace_of self' (broker st) local_path') = 0.
Proof.
  intros H.
  assert (Hp : broker st !! "s3_path" = None).
  { revert H. rewrite run_process_paths.
    destruct (b !! "s3_path") as [p|]; [|discriminate].
    destruct (re_match S3_ARCHIVE_PATTERN p) as [g|]; [|discriminate]. cbv zeta.
    destruct (uploader self _ _ _); [discriminate|].
    destruct (b !! "cluster_id") as [cid|]; [|discriminate].
    intros [= _ <-]. apply lookup_delete_eq. }
  run_paths. by rewrite Hp.
Qed.

Lemma X13_no_second_run_witness :
  exists out st,
    run_process Sample.engine_ok Sample.broker_36 "/tmp/archive" = (Ok out, st)
    /\ result_of Sample.engine_ok (broker st) "/tmp/archive"
       = Raise (KeyError "s3_path").
Proof.
  destruct run_sample_36 as (out & st & H).
  exists out, st. split; [exact H|].
  exact (proj1 (X13_no_second_run _ Sample.engine_ok _ _ "/tmp/archive" _ _ H)).
Defined.

(** ** [create_metadata] and [compute_target_path] *)

(** X14: over the components of a successful match, both fields of the
    metadata are strings, never null: the broker's value where the broker
    holds the key, the matched group otherwise. *)
Theorem X14_metadata_never_null (b : gmap string string) (p : string)
    (g : gmap string string) :
  re_match S3_ARCHIVE_PATTERN p = Some g ->
  exists cid org matched_cid matched_org,
    g !! "cluster_id" = Some matched_cid
    /\ g !! "org_id" = Some matched_org
    /\ cid = default matched_cid (b !! "cluster_id")
    /\ org = default matched_org (b !! "org_id")
    /\ create_metadata [b; g]
       = JObject [("cluster_id", JString cid); ("external_organization", JString org)].
Proof.
  intros H.
  destruct (ReFacts.S3_match_sound _ _ H)
    as (org & c & y & mo & d & t & i & rest & _ & -> & _).
  destruct (ReFacts.groupdict_of_lookup org c y mo d t i) as (Horg & Hcid & _).
  cbv zeta in *.
  exists (default (str c) (b !! "cluster_id")), (default (str org) (b !! "org_id")),
    (str c), (str org).
  repeat split; try done.
  unfold create_metadata. cbn [ChainMap.get]. rewrite Horg, Hcid.
  by destruct (b !! "cluster_id"), (b !! "org_id").
Qed.

Lemma X14_metadata_never_null_witness :
  re_match S3_ARCHIVE_PATTERN Sample.path_36 = Some Sample.groups_36
  /\ exists cid org,
       create_metadata [Sample.broker_path_only; Sample.groups_36]
       = JObject [("cluster_id", JString cid); ("external_organization", JString org)].
Proof.
  split; [exact path_36_matches|].
  destruct (X14_metadata_never_null Sample.broker_path_only _ _ path_36_matches)
    as (cid & org & _ & _ & _ & _ & _ & _ & H).
  exists cid, org. exact H.
Defined.

(** X15: an empty [archives_path_prefix] is no prefix: the target path is
    the one computed without a prefix, with no slash put before it; a
    non-empty prefix and a slash are put before that same path. *)
Theorem X15_prefix (self : S3UploadEngine) (components : ChainMap.t) (prefix : string) :
  compute_target_path (with_prefix self (Some "")) components
  = compute_target_path (with_prefix self None) components
  /\ (prefix <> "" ->
      compute_target_path (with_prefix self (Some prefix)) components
      = prefix +:+ "/" +:+ compute_target_path (with_prefix self None) components).
Proof.
  split; [reflexivity|].
  intros Hne. unfold compute_target_path, with_prefix. cbn [archives_path_prefix archive_name_template].
  destruct (String.eqb_spec prefix ""); [done|reflexivity].
Qed.

Lemma X15_prefix_witness :
  "archives" <> ""
  /\ compute_target_path (with_prefix Sample.engine_ok (Some "archives"))
       [Sample.broker_36; Sample.groups_36]
     = "archives" +:+ "/"
       +:+ compute_target_path (with_prefix Sample.engine_ok None)
             [Sample.broker_36; Sample.groups_36].
Proof.
  assert (H : "archives" <> "") by discriminate.
  split; [exact H|].
  exact (proj2 (X15_prefix Sample.engine_ok [Sample.broker_36; Sample.groups_36] "archives") H).
Defined.
